(** * Anuwat.AI backend (server.js): the per-client quota gate and the
      chat / image proxies, as a shallow embedding.

    The two source files carry the same gate and the same two handlers;
    the definitions below follow [src/server.js] line by line.

    Modelling conventions.
    - JavaScript numbers that the gate touches are millisecond time stamps
      and request counters: integers far below 2^53, where the arithmetic
      of doubles is exact.  They are modelled by [Z].
    - The [Map] [requestCounts] is a [gmap]; its keys are what
      [req.ip || req.connection.remoteAddress || req.headers[...]] can
      evaluate to: a string or [undefined] ([None]).
    - [clientData.count++] mutates the object held by the map.  Every such
      object is created by the [set] call of one client and is reachable
      through the map only, so the update is an insertion at the same key.
    - Strings that the handlers inspect character by character are
      sequences of UTF-16 code units ([jsstring]); message literals of the
      source are kept as the bytes of the source file ([string]).
    - Exceptions are values of [outcome]; [try]/[catch] is a match on it.
    - The upstream service is an oracle [fetch]; every call made to it is
      recorded in a log, so that "no network call" is "the log is empty". *)

From Stdlib Require Import ZArith NArith QArith String Ascii List Sorted Lia.
From stdpp Require Import base option gmap strings list.

Local Open Scope Z_scope.

(** ** JavaScript values *)

(** A string as a sequence of UTF-16 code units. *)
Definition jsstring := list N.

(** An ASCII literal of the source as a [jsstring]. *)
Definition js (s : string) : jsstring :=
  List.map N_of_ascii (list_ascii_of_string s).

(** Values that [express.json()] and [response.json()] can deliver, plus
    [undefined].  Numbers only matter through their truthiness. *)
#[warnings="-register-all"]
Inductive value :=
| VUndefined
| VNull
| VBool (b : bool)
| VNum (n : Z)
| VStr (s : jsstring)
| VArr (elems : list value)
| VObj (fields : list (jsstring * value)).

(** [ToBoolean]. *)
Definition truthy (v : value) : bool :=
  match v with
  | VUndefined | VNull => false
  | VBool b => b
  | VNum n => negb (n =? 0)
  | VStr s => match s with [] => false | _ => true end
  | VArr _ | VObj _ => true
  end.

Definition isArray (v : value) : bool :=
  match v with VArr _ => true | _ => false end.

(** Errors that the modelled code can raise. *)
Inductive error :=
| TypeError
| RangeError
| URIError
| Rejected (message : string).

(** The result of an expression that may throw. *)
Inductive outcome (A : Type) :=
| Return (a : A)
| Throw (e : error).
Arguments Return {A} a.
Arguments Throw {A} e.

#[global] Instance outcome_bind : MBind outcome := λ A B k x,
  match x with
  | Return a => k a
  | Throw e => Throw e
  end.

#[global] Instance outcome_fmap : FMap outcome := λ A B f x,
  match x with
  | Return a => Return (f a)
  | Throw e => Throw e
  end.

Fixpoint own (k : jsstring) (fields : list (jsstring * value)) : value :=
  match fields with
  | [] => VUndefined
  | (k', v) :: rest => if decide (k = k') then v else own k rest
  end.

(** [v.name] for a property name that no built-in prototype defines
    ([messages], [prompt], [choices], [message]): a [TypeError] on
    [undefined] and [null], the own property of an object, [undefined]
    on everything else. *)
Definition member (name : string) (v : value) : outcome value :=
  match v with
  | VUndefined | VNull => Throw TypeError
  | VObj fields => Return (own (js name) fields)
  | _ => Return VUndefined
  end.

(** [v[0]]. *)
Definition index0 (v : value) : outcome value :=
  match v with
  | VUndefined | VNull => Throw TypeError
  | VObj fields => Return (own (js "0") fields)
  | VArr elems => Return (List.hd VUndefined elems)
  | VStr s => Return (match s with [] => VUndefined | c :: _ => VStr [c] end)
  | _ => Return VUndefined
  end.

(** ** [Date.prototype.toISOString] *)

Definition MAX_TIME_VALUE : Z := 8640000000000000.

Definition digit (d : Z) : ascii := ascii_of_nat (48 + Z.to_nat d).

(** [n] in decimal, on exactly [width] digits. *)
Fixpoint pad (width : nat) (n : Z) : string :=
  match width with
  | O => EmptyString
  | S w => String.append (pad w (n / 10)) (String (digit (n mod 10)) EmptyString)
  end.

(** Year, month and day of the proleptic Gregorian calendar for a day
    number counted from 1970-01-01. *)
Definition civil_from_days (days : Z) : Z * Z * Z :=
  let z := days + 719468 in
  let era := z / 146097 in
  let doe := z - era * 146097 in
  let yoe := (doe - doe / 1460 + doe / 36524 - doe / 146096) / 365 in
  let doy := doe - (365 * yoe + yoe / 4 - yoe / 100) in
  let mp := (5 * doy + 2) / 153 in
  let d := doy - (153 * mp + 2) / 5 + 1 in
  let m := if mp <? 10 then mp + 3 else mp - 9 in
  let y := yoe + era * 400 + (if m <=? 2 then 1 else 0) in
  (y, m, d).

Definition year_string (y : Z) : string :=
  if (0 <=? y) && (y <=? 9999) then pad 4 y
  else String.append (if y <? 0 then "-" else "+") (pad 6 (Z.abs y)).

(** [new Date(t).toISOString()]: a [RangeError] outside the range of time
    values, [YYYY-MM-DDTHH:mm:ss.sssZ] inside. *)
Definition toISOString (t : Z) : outcome string :=
  if (- MAX_TIME_VALUE <=? t) && (t <=? MAX_TIME_VALUE) then
    let day := t / 86400000 in
    let ms := t mod 86400000 in
    let '(y, m, d) := civil_from_days day in
    Return (String.concat ""
      [ year_string y; "-"; pad 2 m; "-"; pad 2 d; "T";
        pad 2 (ms / 3600000); ":"; pad 2 (ms / 60000 mod 60); ":";
        pad 2 (ms / 1000 mod 60); "."; pad 3 (ms mod 1000); "Z" ])%string
  else Throw RangeError.

(** ** Responses *)

(** What a handler passes to [res.status(..).json(..)] or [res.json(..)]. *)
Inductive response :=
| RateLimited (msg : string) (reset : string)              (* 429 {error, resetTime} *)
| Failure (status : Z) (msg : string)                      (* status {error} *)
| ServerError (msg : string) (details : option error)      (* 500 {error, details} *)
| ChatResult (data : value)                                (* 200 data *)
| ImageResult (imageUrl : jsstring) (prompt : jsstring).   (* 200 {success, imageUrl, prompt} *)

Definition http_status (r : response) : Z :=
  match r with
  | RateLimited _ _ => 429
  | Failure s _ => s
  | ServerError _ _ => 500
  | ChatResult _ | ImageResult _ _ => 200
  end.

(** ** The quota gate *)

Record clientData := ClientData { count : Z; resetTime : Z }.

Abbreviation requestCounts := (gmap (option string) clientData).

Definition RATE_LIMIT : Z := 50.
Definition WINDOW_MS : Z := 60 * 60 * 1000.

Definition msg_rate_limit : string := "ใช้งานเกินขีดจำกัด กรุณารอ 1 ชั่วโมง".

(** The parts of the incoming request that the server reads. *)
Record request := Request {
  ip : option string;
  remoteAddress : option string;
  x_forwarded_for : option string;
  body : value
}.

(** [a || b] on values that are a string or [undefined]. *)
Definition or_else (a b : option string) : option string :=
  match a with
  | Some (String _ _) => a
  | _ => b
  end.

Definition clientIP (req : request) : option string :=
  or_else (or_else (ip req) (remoteAddress req)) (x_forwarded_for req).

(** How a middleware ends: it calls [next()], it sends a response, or it
    throws. *)
Inductive verdict :=
| Next
| Send (r : response)
| Raise (e : error).

(** [rateLimitMiddleware], with [Date.now()] as [now] and the map
    [requestCounts] passed in and out. *)
Definition rateLimitMiddleware (now : Z) (counts : requestCounts) (req : request)
  : requestCounts * verdict :=
  let key := clientIP req in
  match counts !! key with
  | None =>
      (<[key := ClientData 1 (now + WINDOW_MS)]> counts, Next)
  | Some clientData =>
      if resetTime clientData <? now then
        (<[key := ClientData 1 (now + WINDOW_MS)]> counts, Next)
      else if RATE_LIMIT <=? count clientData then
        match toISOString (resetTime clientData) with
        | Return iso => (counts, Send (RateLimited msg_rate_limit iso))
        | Throw e => (counts, Raise e)
        end
      else
        (<[key := ClientData (count clientData + 1) (resetTime clientData)]> counts, Next)
  end.

(** The requests served so far, oldest first, each with the value that
    [Date.now()] had when it was served. *)
Definition arrivals := list (Z * request).

(** The map after the gate has served [trace] from [counts]. *)
Fixpoint final (counts : requestCounts) (trace : arrivals) : requestCounts :=
  match trace with
  | [] => counts
  | (now, req) :: rest => final (rateLimitMiddleware now counts req).1 rest
  end.

(** What the gate did with each request of [trace]: the instant, the
    client key and the verdict. *)
Fixpoint history (counts : requestCounts) (trace : arrivals)
  : list (Z * option string * verdict) :=
  match trace with
  | [] => []
  | (now, req) :: rest =>
      let r := rateLimitMiddleware now counts req in
      (now, clientIP req, r.2) :: history r.1 rest
  end.

Definition is_next (v : verdict) : bool :=
  match v with Next => true | _ => false end.

(** Is this entry a request of [key] that was let through at an instant
    of the closed interval from [lo] to [hi]? *)
Definition passed_in (key : option string) (lo hi : Z)
  (entry : Z * option string * verdict) : bool :=
  let '(now, k, v) := entry in
  bool_decide (k = key) && is_next v && (lo <=? now) && (now <=? hi).

(** The number of requests of [key] let through between [lo] and [hi]. *)
Definition passed_within (key : option string) (lo hi : Z)
  (h : list (Z * option string * verdict)) : Z :=
  Z.of_nat (length (List.filter (passed_in key lo hi) h)).

(** A request opens a window when it creates the record of its client or
    rolls it over. *)
Definition opens_window (counts : requestCounts) (now : Z) (req : request) : Prop :=
  match counts !! clientIP req with
  | None => True
  | Some d => resetTime d < now
  end.

(** ** The prompt sanitizer of the image path *)

Definition between (lo hi c : N) : bool := ((lo <=? c) && (c <=? hi))%N.

(** [\w] without the [u] and [i] flags: [A-Za-z0-9_]. *)
Definition is_word (c : N) : bool :=
  between 65 90 c || between 97 122 c || between 48 57 c || (c =? 95)%N.

(** [\s], which is also what [trim] removes: the white space and line
    terminator code points of ECMAScript. *)
Definition is_space (c : N) : bool :=
  between 9 13 c || (c =? 32)%N || (c =? 160)%N || (c =? 5760)%N
  || between 8192 8202 c || (c =? 8232)%N || (c =? 8233)%N
  || (c =? 8239)%N || (c =? 8287)%N || (c =? 12288)%N || (c =? 65279)%N.

(** The complement of the class [[^\w\s,-]]. *)
Definition whitelisted (c : N) : bool :=
  is_word c || is_space c || (c =? 44)%N || (c =? 45)%N.

(** [s.replace(/[^\w\s,-]/g, '')]. *)
Definition strip (s : jsstring) : jsstring := List.filter whitelisted s.

Fixpoint trimStart (s : jsstring) : jsstring :=
  match s with
  | c :: rest => if is_space c then trimStart rest else s
  | [] => []
  end.

Definition trimEnd (s : jsstring) : jsstring := rev (trimStart (rev s)).

(** [s.trim()]. *)
Definition trim (s : jsstring) : jsstring := trimEnd (trimStart s).

(** [prompt.replace(/[^\w\s,-]/g, '').trim()]. *)
Definition cleanPrompt (prompt : jsstring) : jsstring := trim (strip prompt).

(** ** [encodeURIComponent] *)

Definition hex_digit (d : N) : N := (if d <? 10 then 48 + d else 55 + d)%N.

(** [%XX] for one byte. *)
Definition percent (byte : N) : jsstring :=
  [37%N; hex_digit (byte / 16); hex_digit (byte mod 16)].

(** The UTF-8 bytes of a code point. *)
Definition utf8 (cp : N) : list N :=
  (if cp <? 128 then [cp]
   else if cp <? 2048 then [192 + cp / 64; 128 + cp mod 64]
   else if cp <? 65536 then [224 + cp / 4096; 128 + cp / 64 mod 64; 128 + cp mod 64]
   else [240 + cp / 262144; 128 + cp / 4096 mod 64; 128 + cp / 64 mod 64;
         128 + cp mod 64])%N.

Definition escape (cp : N) : jsstring := List.concat (List.map percent (utf8 cp)).

(** The characters that [encodeURIComponent] leaves alone:
    [A-Z a-z 0-9 - _ . ! ~ * ' ( )]. *)
Definition unreserved (c : N) : bool :=
  between 65 90 c || between 97 122 c || between 48 57 c
  || (c =? 45)%N || (c =? 95)%N || (c =? 46)%N || (c =? 33)%N
  || (c =? 126)%N || (c =? 42)%N || (c =? 39)%N || (c =? 40)%N || (c =? 41)%N.

Definition high_surrogate (c : N) : bool := between 55296 56319 c.
Definition low_surrogate (c : N) : bool := between 56320 57343 c.

(** A [URIError] on a surrogate that has no partner. *)
Fixpoint encodeURIComponent (s : jsstring) : outcome jsstring :=
  match s with
  | [] => Return []
  | c :: rest =>
      if unreserved c then (λ t, c :: t) <$> encodeURIComponent rest
      else if low_surrogate c then Throw URIError
      else if high_surrogate c then
        match rest with
        | d :: rest' =>
            if low_surrogate d then
              (λ t, escape ((c - 55296) * 1024 + (d - 56320) + 65536)%N ++ t)
                <$> encodeURIComponent rest'
            else Throw URIError
        | [] => Throw URIError
        end
      else (λ t, escape c ++ t) <$> encodeURIComponent rest
  end.

(** ** The upstream service *)

(** The arguments of the [fetch] call of the chat handler. *)
Record upstream_request := UpstreamRequest {
  url : string;
  method : string;
  authorization : string;
  content_type : string;
  model : string;
  messages : value;
  max_tokens : Z;
  temperature : Q;
  stream : bool
}.

(** What the handler reads of the upstream's answer: the status, and
    the results of [response.text()] and of [response.json()]. *)
Record upstream_response := UpstreamResponse {
  status : Z;
  text : outcome jsstring;
  json : outcome value
}.

(** [response.ok]. *)
Definition ok (r : upstream_response) : bool :=
  (200 <=? status r) && (status r <? 300).

(** The world outside: whether [import('node-fetch')] resolves, and what
    [fetch] answers to a call. *)
Record upstream := Upstream {
  import_node_fetch : outcome unit;
  fetch : upstream_request → outcome upstream_response
}.

(** [process.env]. *)
Record environment := Environment {
  GROQ_API_KEY : option string;
  NODE_ENV : option string
}.

(** ** Messages of the source *)

Definition msg_configuration : string := "Server configuration error: API Key not found".
Definition msg_messages_required : string := "Invalid request: messages array required".
Definition msg_connection : string := "เกิดข้อผิดพลาดในการเชื่อมต่อ AI".
Definition msg_authentication : string := "ปัญหาการยืนยันตัวตน กรุณาติดต่อผู้ดูแลระบบ".
Definition msg_overloaded : string := "AI ใช้งานหนักเกินไป กรุณารอสักครู่แล้วลองใหม่".
Definition msg_bad_question : string := "คำถามไม่ถูกต้อง กรุณาลองใหม่".
Definition msg_incomplete : string := "ได้รับข้อมูลไม่ครบถ้วนจาก AI".
Definition msg_server : string := "เกิดข้อผิดพลาดภายในเซิร์ฟเวอร์".
Definition msg_prompt_required : string := "Prompt is required".
Definition msg_image : string := "เกิดข้อผิดพลาดในการสร้างภาพ".
Definition msg_unexpected : string := "เกิดข้อผิดพลาดที่ไม่คาดคิด".

(** ** The chat handler *)

(** [!GROQ_API_KEY] is false exactly for a non-empty string. *)
Definition configured (key : option string) : bool :=
  match key with
  | Some (String _ _) => true
  | _ => false
  end.

Definition errorMessage (status : Z) : string :=
  if status =? 401 then msg_authentication
  else if status =? 429 then msg_overloaded
  else if status =? 400 then msg_bad_question
  else msg_connection.

Definition chat_call (key : string) (messages : value) : upstream_request :=
  {| url := "https://api.groq.com/openai/v1/chat/completions";
     method := "POST";
     authorization := String.append "Bearer " key;
     content_type := "application/json";
     model := "llama3-70b-8192";
     messages := messages;
     max_tokens := 4000;
     temperature := (3 # 10)%Q;
     stream := false |}.

(** The handler from the answer of [fetch] on. *)
Definition relay (answer : upstream_response) : outcome response :=
  if negb (ok answer) then
    errorData ← text answer;
    Return (Failure (status answer) (errorMessage (status answer)))
  else
    data ← json answer;
    choices ← member "choices" data;
    if negb (truthy choices) then Return (Failure 500 msg_incomplete) else
    choice ← index0 choices;
    if negb (truthy choice) then Return (Failure 500 msg_incomplete) else
    message ← member "message" choice;
    if negb (truthy message) then Return (Failure 500 msg_incomplete) else
    Return (ChatResult data).

(** The body of the [try] block: the calls made to the upstream and the
    response sent, or the error thrown. *)
Definition chat_try (env : environment) (up : upstream) (req : request)
  : list upstream_request * outcome response :=
  if negb (configured (GROQ_API_KEY env)) then
    ([], Return (Failure 500 msg_configuration))
  else
    match member "messages" (body req) with
    | Throw e => ([], Throw e)
    | Return messages =>
        if negb (truthy messages) || negb (isArray messages) then
          ([], Return (Failure 400 msg_messages_required))
        else
          match import_node_fetch up with
          | Throw e => ([], Throw e)
          | Return _ =>
              let call := chat_call (default ""%string (GROQ_API_KEY env)) messages in
              ([call], answer ← fetch up call; relay answer)
          end
    end.

Definition development (env : environment) : bool :=
  bool_decide (NODE_ENV env = Some "development"%string).

(** The handler of [POST /api/chat], [try] and [catch]. *)
Definition chat_handler (env : environment) (up : upstream) (req : request)
  : list upstream_request * response :=
  let r := chat_try env up req in
  (r.1,
   match r.2 with
   | Return resp => resp
   | Throw e => ServerError msg_server (if development env then Some e else None)
   end).

(** ** The image handler *)

Definition image_url (clean : jsstring) : outcome jsstring :=
  encoded ← encodeURIComponent clean;
  Return (js "https://image.pollinations.ai/prompt/" ++ encoded
          ++ js "?width=512&height=512&nologo=true&enhance=true").

Definition image_try (req : request) : outcome response :=
  prompt ← member "prompt" (body req);
  if negb (truthy prompt) then Return (Failure 400 msg_prompt_required)
  else
    match prompt with
    | VStr s =>
        apiUrl ← image_url (cleanPrompt s);
        Return (ImageResult apiUrl (cleanPrompt s))
    | _ => Throw TypeError
    end.

(** The handler of [POST /api/generate-image].  It has no [fetch]. *)
Definition image_handler (req : request) : list upstream_request * response :=
  ([],
   match image_try req with
   | Return resp => resp
   | Throw e => ServerError msg_image None
   end).

(** ** The two routes: the gate, then the handler *)

Definition route (handler : request → list upstream_request * response)
  (now : Z) (counts : requestCounts) (req : request)
  : requestCounts * (list upstream_request * response) :=
  let r := rateLimitMiddleware now counts req in
  (r.1,
   match r.2 with
   | Next => handler req
   | Send resp => ([], resp)
   | Raise e => ([], Failure 500 msg_unexpected)
   end).

Definition api_chat (env : environment) (up : upstream) :=
  route (chat_handler env up).

Definition api_generate_image := route image_handler.

(** ** The error categories of the specification *)

Inductive category :=
| invalid_input
| configuration
| auth_failure
| upstream_overloaded
| upstream_error
| malformed_upstream_response
| internal_error
| rejected_by_quota.

(** The category that each response of the source stands for, read off
    its message. *)
Definition category_of (r : response) : option category :=
  match r with
  | RateLimited _ _ => Some rejected_by_quota
  | ServerError _ _ => Some internal_error
  | Failure _ msg =>
      if bool_decide (msg = msg_configuration) then Some configuration
      else if bool_decide (msg = msg_messages_required) then Some invalid_input
      else if bool_decide (msg = msg_prompt_required) then Some invalid_input
      else if bool_decide (msg = msg_bad_question) then Some invalid_input
      else if bool_decide (msg = msg_authentication) then Some auth_failure
      else if bool_decide (msg = msg_overloaded) then Some upstream_overloaded
      else if bool_decide (msg = msg_connection) then Some upstream_error
      else if bool_decide (msg = msg_incomplete) then Some malformed_upstream_response
      else if bool_decide (msg = msg_unexpected) then Some internal_error
      else None
  | ChatResult _ | ImageResult _ _ => None
  end.

(** ** Predicates used by the statements about the gate *)

(** The four cases of the gate, for case analysis. *)
Inductive gate_case (now : Z) (counts : requestCounts) (req : request) : Prop :=
| case_fresh :
    counts !! clientIP req = None → gate_case now counts req
| case_rollover d :
    counts !! clientIP req = Some d → resetTime d < now → gate_case now counts req
| case_count d :
    counts !! clientIP req = Some d → now ≤ resetTime d → count d < RATE_LIMIT →
    gate_case now counts req
| case_full d :
    counts !! clientIP req = Some d → now ≤ resetTime d → RATE_LIMIT ≤ count d →
    gate_case now counts req.

(** Every record holds a count between 1 and the limit. *)
Definition bounded (counts : requestCounts) : Prop :=
  ∀ key d, counts !! key = Some d → 1 ≤ count d ≤ RATE_LIMIT.

(** The clock never runs backwards along the trace. *)
Definition chronological (trace : arrivals) : Prop :=
  StronglySorted (λ a b : Z * request, a.1 ≤ b.1) trace.

(** ** Predicates used by the statements about the proxies *)

Definition starts_with_space (s : jsstring) : bool :=
  match s with
  | c :: _ => is_space c
  | [] => false
  end.

Definition ends_with_space (s : jsstring) : bool := starts_with_space (rev s).

(** The test that the chat handler makes on the parsed payload:
    [data.choices], [data.choices[0]] and [data.choices[0].message] are
    all truthy. *)
Definition first_choice_has_message (data : value) : bool :=
  match member "choices" data with
  | Return choices =>
      truthy choices &&
      match index0 choices with
      | Return choice =>
          truthy choice &&
          match member "message" choice with
          | Return message => truthy message
          | Throw _ => false
          end
      | Throw _ => false
      end
  | Throw _ => false
  end.

(** Case analysis on whether an entry is charged to the window. *)
Ltac case_charge :=
  match goal with
  | |- context [if ?b then 1 else 0] => destruct b
  end.

(** ** Sample inputs *)

Definition alice : request :=
  Request (Some "203.0.113.7"%string) None None (VObj []).

Definition bob : request :=
  Request None (Some "198.51.100.2"%string) (Some "203.0.113.7"%string) (VObj []).

(** A map in which the quota of alice is used up for the window that
    ends at 3600000. *)
Definition alice_exhausted : requestCounts :=
  {[ Some "203.0.113.7"%string := ClientData 50 3600000 ]}.

(** A map in which 7 requests of alice are charged to the same window. *)
Definition alice_busy : requestCounts :=
  {[ Some "203.0.113.7"%string := ClientData 7 3600000 ]}.

Definition env_ok : environment :=
  Environment (Some "gsk_test"%string) (Some "production"%string).

Definition env_without_key : environment := Environment None None.

(** An upstream that answers every call with [answer]. *)
Definition up_answering (answer : upstream_response) : upstream :=
  Upstream (Return ()) (λ _, Return answer).

Definition payload_ok : value :=
  VObj [(js "choices",
         VArr [VObj [(js "message",
                      VObj [(js "role", VStr (js "assistant"));
                            (js "content", VStr (js "hello"))])]])].

Definition chat_request (messages : value) : request :=
  Request (Some "203.0.113.7"%string) None None (VObj [(js "messages", messages)]).

Definition image_request (prompt : value) : request :=
  Request (Some "203.0.113.7"%string) None None (VObj [(js "prompt", prompt)]).

Definition one_message : value :=
  VArr [VObj [(js "role", VStr (js "user")); (js "content", VStr (js "hi"))]].

(** ** The statistics endpoint *)

(** The body of the answer of [GET /api/stats]. *)
Record stats := Stats {
  totalActiveIPs : Z;
  serverUptime : Q;
  memoryUsage : value;
  environment_name : string
}.

(** The handler of [GET /api/stats], with [process.uptime()] and
    [process.memoryUsage()] as arguments.  The route has no gate. *)
Definition stats_handler (env : environment) (uptime : Q) (memory : value)
  (counts : requestCounts) : stats :=
  {| totalActiveIPs := Z.of_nat (size counts);
     serverUptime := uptime;
     memoryUsage := memory;
     environment_name :=
       match NODE_ENV env with
       | Some (String a s) => String a s
       | _ => "development"%string
       end |}.

(** ** The deployment self-test at the head of [server.js] *)

(** [s.startsWith(needle)]. *)
Fixpoint starts_with (needle s : jsstring) : bool :=
  match needle, s with
  | [], _ => true
  | _ :: _, [] => false
  | c :: needle', d :: s' => (c =? d)%N && starts_with needle' s'
  end.

(** [s.includes(needle)] on strings. *)
Fixpoint includes (needle s : jsstring) : bool :=
  match s with
  | [] => starts_with needle []
  | _ :: s' => starts_with needle s || includes needle s'
  end.

(** What [testSyntaxFix] reads of the answer of the health endpoint: the
    status, [headers.get('Access-Control-Allow-Origin')] (a string or
    [null]) and the result of [response.json()]. *)
Record health_response := HealthResponse {
  health_status : Z;
  allow_origin : option jsstring;
  health_json : outcome value
}.

(** [v.includes('anuwatkoon.com')]: the substring test on a string,
    membership on an array, a [TypeError] on every other value. *)
Definition includes_domain (v : value) : outcome bool :=
  match v with
  | VStr s => Return (includes (js "anuwatkoon.com") s)
  | VArr elems =>
      Return (existsb (λ e, match e with
                            | VStr s => bool_decide (s = js "anuwatkoon.com")
                            | _ => false
                            end) elems)
  | _ => Throw TypeError
  end.

(** The body of the [try] block of [testSyntaxFix]: the value returned
    ([undefined] when no [return] is reached), or the error thrown.  The
    console output is left out. *)
Definition test_try (fetched : outcome health_response) : outcome value :=
  answer ← fetched;
  if health_status answer =? 200 then
    if bool_decide (allow_origin answer = Some (js "http://www.anuwatkoon.com")) then
      data ← health_json answer;
      cors ← member "cors" data;
      if negb (truthy cors) then Return VUndefined
      else
        found ← includes_domain cors;
        if (found : bool) then Return (VBool true) else Return VUndefined
    else
      match allow_origin answer with
      | Some (c :: origin) =>
          if includes (js "anuwatkoon.com") (c :: origin) then Return (VBool true)
          else Return (VBool false)
      | _ => Return (VBool false)
      end
  else if 500 <=? health_status answer then Return (VBool false)
  else Return (VBool false).

(** [testSyntaxFix]: the [catch] block returns [false]. *)
Definition testSyntaxFix (fetched : outcome health_response) : value :=
  match test_try fetched with
  | Return v => v
  | Throw _ => VBool false
  end.

(** ** Observations used by the further statements *)

(** The requests of one client. *)
Definition by_client (key : option string) (trace : arrivals) : arrivals :=
  List.filter (λ a : Z * request, bool_decide (clientIP a.2 = key)) trace.

(** The entries of a history that belong to one client. *)
Definition of_client (key : option string)
  (h : list (Z * option string * verdict)) : list (Z * option string * verdict) :=
  List.filter (λ e : Z * option string * verdict, bool_decide (e.1.2 = key)) h.

(** The client keys that occur in a trace. *)
Definition clients (trace : arrivals) : gset (option string) :=
  list_to_set (List.map (λ a : Z * request, clientIP a.2) trace).

(** Characters that can stand in a path segment of a URL without ending
    it: word characters, the hyphen and the percent sign of an escape. *)
Definition url_safe (c : N) : bool := is_word c || (c =? 45)%N || (c =? 37)%N.

(** The code units from [lo] to [hi]. *)
Definition units (lo hi : N) : list N :=
  List.map (λ i, (lo + N.of_nat i)%N) (seq 0 (N.to_nat (hi + 1 - lo))).

(** All whitelisted code units, in the order of the tests of
    [whitelisted]. *)
Definition whitelist : list N :=
  units 65 90 ++ units 97 122 ++ units 48 57 ++ [95%N]
  ++ units 9 13 ++ [32; 160; 5760]%N ++ units 8192 8202
  ++ [8232; 8233; 8239; 8287; 12288; 65279; 44; 45]%N.

(** What is asked of one code unit so that the encoded clean prompt is
    safe: a whitelisted unit is either kept as it is, and is then a word
    character or a hyphen, or it is no surrogate and its escape is made
    of safe characters. *)
Definition encodes_safely (c : N) : bool :=
  implb (whitelisted c)
    (if unreserved c then url_safe c
     else negb (low_surrogate c) && negb (high_surrogate c)
          && forallb url_safe (escape c)).

(** ** The health endpoint *)

(** The body of the answer of [GET /api/health] of [server.js], with the
    ISO form of the current instant. *)
Definition health_payload (iso : string) : value :=
  VObj [(js "status", VStr (js "OK"));
        (js "timestamp", VStr (js iso));
        (js "version", VStr (js "1.0.2"));
        (js "cors", VStr (js "enabled for anuwatkoon.com"))].

(** The handler of [GET /api/health], with [Date.now()] as [now]. *)
Definition health_handler (now : Z) : outcome value :=
  iso ← toISOString now;
  Return (health_payload iso).


(** * Worked examples *)

Example iso_epoch : toISOString 0 = Return "1970-01-01T00:00:00.000Z"%string.
Proof. reflexivity. Qed.

Example iso_2023 : toISOString 1700000000000 = Return "2023-11-14T22:13:20.000Z"%string.
Proof. reflexivity. Qed.

Example iso_leap : toISOString 951782400000 = Return "2000-02-29T00:00:00.000Z"%string.
Proof. reflexivity. Qed.

Example iso_before_epoch : toISOString (-1) = Return "1969-12-31T23:59:59.999Z"%string.
Proof. reflexivity. Qed.

Example iso_year_10000 : toISOString 253402300800000 = Return "+010000-01-01T00:00:00.000Z"%string.
Proof. reflexivity. Qed.

Example iso_year_0 : toISOString (-62167219200000) = Return "0000-01-01T00:00:00.000Z"%string.
Proof. reflexivity. Qed.

Example iso_year_neg : toISOString (-62167219200001) = Return "-000001-12-31T23:59:59.999Z"%string.
Proof. reflexivity. Qed.

Example iso_out_of_range : toISOString 8640000000000001 = Throw RangeError.
Proof. reflexivity. Qed.

Example iso_end_of_2024 : toISOString 1735689599999 = Return "2024-12-31T23:59:59.999Z"%string.
Proof. reflexivity. Qed.

Example iso_march_2024 : toISOString 1709251200000 = Return "2024-03-01T00:00:00.000Z"%string.
Proof. reflexivity. Qed.

Example iso_2100 : toISOString 4102444800000 = Return "2100-01-01T00:00:00.000Z"%string.
Proof. reflexivity. Qed.

Example iso_1900 : toISOString (-2207520000000) = Return "1900-01-18T00:00:00.000Z"%string.
Proof. reflexivity. Qed.

Example clientIP_ip : clientIP alice = Some "203.0.113.7"%string.
Proof. reflexivity. Qed.

Example clientIP_remote : clientIP bob = Some "198.51.100.2"%string.
Proof. reflexivity. Qed.

Example clientIP_empty_ip :
  clientIP (Request (Some ""%string) None (Some "10.0.0.9"%string) VNull)
  = Some "10.0.0.9"%string.
Proof. reflexivity. Qed.

Example clientIP_undefined : clientIP (Request None None None VNull) = None.
Proof. reflexivity. Qed.

(** Fifty requests of one client go on, the next two get 429. *)
Example fifty_then_429 :
  List.map (λ e : Z * option string * verdict, is_next e.2)
    (history ∅ (List.map (λ i, (Z.of_nat i, alice)) (seq 0 52)))
  = repeat true 50 ++ [false; false].
Proof. by vm_compute. Qed.

Example fifty_first_answer :
  List.nth_error (history ∅ (List.map (λ i, (Z.of_nat i, alice)) (seq 0 52))) 50
  = Some (50, Some "203.0.113.7"%string,
          Send (RateLimited msg_rate_limit "1970-01-01T01:00:00.000Z")).
Proof. by vm_compute. Qed.

Example encode_comma_space :
  encodeURIComponent (js "a b,c-d_e") = Return (js "a%20b%2Cc-d_e").
Proof. reflexivity. Qed.

Example encode_wide_spaces :
  encodeURIComponent [160%N; 12288%N] = Return (js "%C2%A0%E3%80%80").
Proof. reflexivity. Qed.

Example encode_pair :
  encodeURIComponent [55357%N; 56832%N] = Return (js "%F0%9F%98%80").
Proof. reflexivity. Qed.

Example encode_lone_surrogate : encodeURIComponent [55357%N] = Throw URIError.
Proof. reflexivity. Qed.

Example clean_keeps_inner_space :
  cleanPrompt (js "  red, blue-green  (v2) ") = js "red, blue-green  v2".
Proof. reflexivity. Qed.

Example clean_drops_non_ascii :
  cleanPrompt ([3649%N; 3617%N; 3623%N] ++ js " cat" ++ [8232%N]) = js "cat".
Proof. reflexivity. Qed.

Example image_needs_string :
  image_handler (image_request (VNum 5)) = ([], ServerError msg_image None).
Proof. reflexivity. Qed.

Example chat_needs_body :
  chat_handler env_ok
    (up_answering (UpstreamResponse 200 (Return []) (Return payload_ok)))
    (Request None None None VUndefined)
  = ([], ServerError msg_server None).
Proof. reflexivity. Qed.

Example payload_ok_shape : first_choice_has_message payload_ok = true.
Proof. reflexivity. Qed.

Example later_choice_is_not_looked_at :
  first_choice_has_message
    (VObj [(js "choices", VArr [VObj []; VObj [(js "message", VStr (js "hi"))]])])
  = false.
Proof. reflexivity. Qed.

(** * Properties of the quota gate *)

Section Gate.
Implicit Types (now : Z) (counts : requestCounts) (req : request)
  (d : clientData) (key : option string) (trace : arrivals).

Lemma window_nonneg : 0 ≤ WINDOW_MS.
Proof. unfold WINDOW_MS. lia. Qed.

Lemma limit_positive : 1 ≤ RATE_LIMIT.
Proof. unfold RATE_LIMIT. lia. Qed.

Lemma gate_fresh now counts req :
  counts !! clientIP req = None →
  rateLimitMiddleware now counts req
  = (<[clientIP req := ClientData 1 (now + WINDOW_MS)]> counts, Next).
Proof. intros H. unfold rateLimitMiddleware. by rewrite H. Qed.

Lemma gate_rollover now counts req d :
  counts !! clientIP req = Some d → resetTime d < now →
  rateLimitMiddleware now counts req
  = (<[clientIP req := ClientData 1 (now + WINDOW_MS)]> counts, Next).
Proof.
  intros H Hlt. unfold rateLimitMiddleware. rewrite H.
  by rewrite (proj2 (Z.ltb_lt _ _) Hlt).
Qed.

Lemma gate_count now counts req d :
  counts !! clientIP req = Some d → now ≤ resetTime d → count d < RATE_LIMIT →
  rateLimitMiddleware now counts req
  = (<[clientIP req := ClientData (count d + 1) (resetTime d)]> counts, Next).
Proof.
  intros H Hle Hc. unfold rateLimitMiddleware. rewrite H.
  rewrite (proj2 (Z.ltb_ge _ _) Hle).
  by rewrite (proj2 (Z.leb_gt _ _) Hc).
Qed.

Lemma gate_full now counts req d :
  counts !! clientIP req = Some d → now ≤ resetTime d → RATE_LIMIT ≤ count d →
  rateLimitMiddleware now counts req
  = (counts,
     match toISOString (resetTime d) with
     | Return iso => Send (RateLimited msg_rate_limit iso)
     | Throw e => Raise e
     end).
Proof.
  intros H Hle Hc. unfold rateLimitMiddleware. rewrite H.
  rewrite (proj2 (Z.ltb_ge _ _) Hle).
  rewrite (proj2 (Z.leb_le _ _) Hc).
  by destruct (toISOString (resetTime d)).
Qed.

Lemma gate_cases now counts req : gate_case now counts req.
Proof.
  destruct (counts !! clientIP req) as [d|] eqn:H.
  - destruct (Z.lt_ge_cases (resetTime d) now).
    + by eapply case_rollover.
    + destruct (Z.lt_ge_cases (count d) RATE_LIMIT).
      * by eapply case_count.
      * by eapply case_full.
  - by apply case_fresh.
Qed.

Lemma full_not_next d :
  match toISOString (resetTime d) with
  | Return iso => Send (RateLimited msg_rate_limit iso)
  | Throw e => Raise e
  end ≠ Next.
Proof. by destruct (toISOString (resetTime d)). Qed.

Lemma toISOString_in_range t :
  - MAX_TIME_VALUE ≤ t ≤ MAX_TIME_VALUE → ∃ iso, toISOString t = Return iso.
Proof.
  intros [Hlo Hhi]. unfold toISOString.
  rewrite (proj2 (Z.leb_le _ _) Hlo), (proj2 (Z.leb_le _ _) Hhi). simpl.
  destruct (civil_from_days (t / 86400000)) as [[y m] dd]. eauto.
Qed.

(** The gate only touches the record of the client it serves. *)
Lemma gate_other now counts req key :
  key ≠ clientIP req →
  (rateLimitMiddleware now counts req).1 !! key = counts !! key.
Proof.
  intros Hne.
  destruct (gate_cases now counts req) as [H|d H ?|d H ? ?|d H ? ?].
  - rewrite gate_fresh by done. simpl. by rewrite lookup_insert_ne.
  - erewrite gate_rollover by done. simpl. by rewrite lookup_insert_ne.
  - erewrite gate_count by done. simpl. by rewrite lookup_insert_ne.
  - by erewrite gate_full by done.
Qed.

(** A request that is not let through changes nothing. *)
Lemma gate_blocked now counts req :
  (rateLimitMiddleware now counts req).2 ≠ Next →
  (rateLimitMiddleware now counts req).1 = counts.
Proof.
  destruct (gate_cases now counts req) as [H|d H ?|d H ? ?|d H ? ?].
  - rewrite gate_fresh by done. simpl. congruence.
  - erewrite gate_rollover by done. simpl. congruence.
  - erewrite gate_count by done. simpl. congruence.
  - by erewrite gate_full by done.
Qed.

(** *** Every record stays between 1 and the limit *)

Lemma bounded_empty : bounded ∅.
Proof. intros key d H. by rewrite lookup_empty in H. Qed.

Lemma bounded_insert counts key d :
  bounded counts → 1 ≤ count d ≤ RATE_LIMIT → bounded (<[key := d]> counts).
Proof.
  intros Hb Hd k d' H. rewrite lookup_insert in H.
  case_decide; simplify_eq; eauto.
Qed.

Lemma gate_bounded now counts req :
  bounded counts → bounded (rateLimitMiddleware now counts req).1.
Proof.
  intros Hb. pose proof limit_positive as Hpos.
  destruct (gate_cases now counts req) as [H|d H ?|d H ? ?|d H ? ?].
  - rewrite gate_fresh by done. apply bounded_insert; simpl; [done|lia].
  - erewrite gate_rollover by done. apply bounded_insert; simpl; [done|lia].
  - erewrite gate_count by done. apply bounded_insert; simpl; [done|].
    specialize (Hb _ _ H). lia.
  - by erewrite gate_full by done.
Qed.

Lemma final_bounded trace : ∀ counts, bounded counts → bounded (final counts trace).
Proof.
  induction trace as [|[now req] rest IH]; intros counts Hb; simpl; [done|].
  apply IH. by apply gate_bounded.
Qed.
End Gate.

(** *** Requests let through inside one window *)

Section Window.
Implicit Types (now lo hi : Z) (counts : requestCounts) (req : request)
  (d : clientData) (key : option string) (trace prefix rest : arrivals)
  (h : list (Z * option string * verdict)).

Lemma final_app prefix rest counts :
  final counts (prefix ++ rest) = final (final counts prefix) rest.
Proof.
  revert counts. induction prefix as [|[now req] p IH]; intros counts; simpl; [done|].
  apply IH.
Qed.

Lemma history_app prefix rest counts :
  history counts (prefix ++ rest)
  = history counts prefix ++ history (final counts prefix) rest.
Proof.
  revert counts. induction prefix as [|[now req] p IH]; intros counts; simpl; [done|].
  by rewrite IH.
Qed.

Lemma passed_within_cons key lo hi e h :
  passed_within key lo hi (e :: h)
  = (if passed_in key lo hi e then 1 else 0) + passed_within key lo hi h.
Proof.
  unfold passed_within. simpl. destruct (passed_in key lo hi e); simpl; lia.
Qed.

Lemma passed_within_app key lo hi h1 h2 :
  passed_within key lo hi (h1 ++ h2)
  = passed_within key lo hi h1 + passed_within key lo hi h2.
Proof.
  induction h1 as [|e h1 IH]; [done|].
  rewrite <- app_comm_cons, !passed_within_cons, IH. lia.
Qed.

Lemma passed_within_none key lo hi h :
  Forall (λ e, passed_in key lo hi e = false) h → passed_within key lo hi h = 0.
Proof.
  induction 1 as [|e h He _ IH]; [done|].
  by rewrite passed_within_cons, He, IH.
Qed.

Lemma chronological_suffix prefix rest :
  chronological (prefix ++ rest) → chronological rest.
Proof.
  induction prefix as [|a p IH]; [done|].
  intros H. apply IH. by inversion H.
Qed.

(** Once the clock has passed [hi], nothing more falls into the window. *)
Lemma nothing_after key lo hi trace :
  ∀ counts, Forall (λ a : Z * request, hi < a.1) trace →
            passed_within key lo hi (history counts trace) = 0.
Proof.
  induction trace as [|[now req] rest IH]; intros counts Hall; [done|].
  inversion Hall as [|? ? Hnow Hrest]; subst. simpl in Hnow.
  simpl. rewrite passed_within_cons, IH by done.
  unfold passed_in. rewrite (proj2 (Z.leb_gt _ _) Hnow).
  by rewrite andb_false_r.
Qed.

(** A record with [count d] requests charged to it lets at most
    [RATE_LIMIT - count d] more through before its window closes. *)
Lemma window_remainder key lo trace :
  ∀ counts d,
    chronological trace →
    counts !! key = Some d → count d ≤ RATE_LIMIT →
    passed_within key lo (resetTime d) (history counts trace) ≤ RATE_LIMIT - count d.
Proof.
  induction trace as [|[now req] rest IH]; intros counts d Hsort Hd Hc.
  { unfold passed_within. simpl. lia. }
  inversion Hsort as [|? ? Hrest Hhead]; subst.
  simpl. rewrite passed_within_cons.
  destruct (decide (clientIP req = key)) as [<-|Hne].
  - destruct (gate_cases now counts req) as [H|d' H Hlt|d' H Hle Hlim|d' H Hle Hlim];
      rewrite H in Hd; simplify_eq.
    + (* rollover: this request and all later ones fall after the window *)
      erewrite gate_rollover by done. simpl.
      rewrite nothing_after.
      * unfold passed_in. rewrite (proj2 (Z.leb_gt _ _) Hlt).
        rewrite andb_false_r. lia.
      * eapply Forall_impl; [exact Hhead|]. simpl. intros a Ha. lia.
    + (* one more request charged to the record *)
      erewrite gate_count by done. simpl.
      pose proof (IH (<[clientIP req := ClientData (count d + 1) (resetTime d)]> counts)
                    (ClientData (count d + 1) (resetTime d)) Hrest) as IH'.
      simpl in IH'. rewrite lookup_insert_eq in IH'.
      specialize (IH' eq_refl ltac:(lia)).
      case_charge; lia.
    + (* the limit is reached: turned away, nothing changes *)
      erewrite gate_full by done. simpl.
      specialize (IH counts d Hrest H Hc).
      unfold passed_in. rewrite bool_decide_eq_true_2 by done.
      destruct (toISOString (resetTime d)); simpl; lia.
  - assert ((rateLimitMiddleware now counts req).1 !! key = Some d) as Hd'.
    { by rewrite gate_other. }
    specialize (IH _ d Hrest Hd' Hc).
    unfold passed_in. rewrite bool_decide_eq_false_2 by done. simpl. lia.
Qed.

(** A request that was served at [t] leaves a record whose window ends
    no earlier than [t], and this stays so. *)
Lemma deadline_kept trace :
  ∀ counts key d t,
    counts !! key = Some d → t ≤ resetTime d →
    ∃ d', final counts trace !! key = Some d' ∧ t ≤ resetTime d'.
Proof.
  pose proof window_nonneg as Hw.
  induction trace as [|[now req] rest IH]; intros counts key d t Hd Ht; simpl.
  { eauto. }
  destruct (decide (key = clientIP req)) as [->|Hne].
  - destruct (gate_cases now counts req) as [H|d' H Hlt|d' H Hle Hlim|d' H Hle Hlim];
      rewrite H in Hd; simplify_eq.
    + erewrite gate_rollover by done. simpl.
      eapply IH; [apply lookup_insert_eq|]. simpl. lia.
    + erewrite gate_count by done. simpl.
      eapply IH; [apply lookup_insert_eq|]. simpl. lia.
    + erewrite gate_full by done. simpl. eauto.
  - eapply IH; [|exact Ht]. by rewrite gate_other.
Qed.

Lemma served_deadline now counts req :
  ∃ d, (rateLimitMiddleware now counts req).1 !! clientIP req = Some d
       ∧ now ≤ resetTime d.
Proof.
  pose proof window_nonneg as Hw.
  destruct (gate_cases now counts req) as [H|d H ?|d H ? ?|d H ? ?].
  - rewrite gate_fresh by done. simpl. rewrite lookup_insert_eq.
    eexists; split; [done|]. simpl. lia.
  - erewrite gate_rollover by done. simpl. rewrite lookup_insert_eq.
    eexists; split; [done|]. simpl. lia.
  - erewrite gate_count by done. simpl. rewrite lookup_insert_eq.
    eexists; split; [done|]. simpl. lia.
  - erewrite gate_full by done. simpl. eauto.
Qed.

Lemma history_deadline trace :
  ∀ counts t key v,
    (t, key, v) ∈ history counts trace →
    ∃ d, final counts trace !! key = Some d ∧ t ≤ resetTime d.
Proof.
  induction trace as [|[now req] rest IH]; intros counts t key v Hin; simpl in *.
  { by apply elem_of_nil in Hin. }
  apply elem_of_cons in Hin as [Heq|Hin].
  - simplify_eq.
    destruct (served_deadline now counts req) as (d & Hd & Ht).
    by eapply deadline_kept.
  - by eapply IH.
Qed.

(** Nothing that was served before a window opened falls into it. *)
Lemma nothing_before prefix now req counts hi :
  opens_window (final counts prefix) now req →
  passed_within (clientIP req) now hi (history counts prefix) = 0.
Proof.
  intros Hopen. apply passed_within_none, Forall_forall.
  intros [[t key] v] Hin. unfold passed_in.
  destruct (decide (key = clientIP req)) as [->|Hne].
  - destruct (history_deadline _ _ _ _ _ Hin) as (d & Hd & Ht).
    unfold opens_window in Hopen. rewrite Hd in Hopen.
    rewrite (proj2 (Z.leb_gt now t)) by lia.
    by rewrite andb_false_r.
  - by rewrite bool_decide_eq_false_2.
Qed.

Lemma window_bound prefix rest now req :
  chronological (prefix ++ (now, req) :: rest) →
  opens_window (final ∅ prefix) now req →
  passed_within (clientIP req) now (now + WINDOW_MS)
    (history ∅ (prefix ++ (now, req) :: rest)) ≤ RATE_LIMIT.
Proof.
  intros Hsort Hopen.
  rewrite history_app, passed_within_app, nothing_before by done.
  apply chronological_suffix in Hsort.
  inversion Hsort as [|? ? Hrest _]; subst.
  simpl. rewrite passed_within_cons.
  assert (rateLimitMiddleware now (final ∅ prefix) req
          = (<[clientIP req := ClientData 1 (now + WINDOW_MS)]> (final ∅ prefix), Next))
    as ->.
  { unfold opens_window in Hopen.
    destruct (final ∅ prefix !! clientIP req) as [d|] eqn:H.
    - by eapply gate_rollover.
    - by apply gate_fresh. }
  simpl.
  pose proof (window_remainder (clientIP req) now rest
                (<[clientIP req := ClientData 1 (now + WINDOW_MS)]> (final ∅ prefix))
                (ClientData 1 (now + WINDOW_MS)) Hrest) as Hrem.
  simpl in Hrem. rewrite lookup_insert_eq in Hrem.
  pose proof limit_positive.
  specialize (Hrem eq_refl ltac:(lia)).
  case_charge; lia.
Qed.

Lemma strangers_leave_no_record trace key :
  ∀ counts, Forall (λ a : Z * request, clientIP a.2 ≠ key) trace →
            final counts trace !! key = counts !! key.
Proof.
  induction trace as [|[now req] rest IH]; intros counts Hall; simpl; [done|].
  inversion Hall as [|? ? Hreq Hrest]; subst. simpl in Hreq.
  rewrite IH by done. apply gate_other. congruence.
Qed.
End Window.

(** *** The claims about the gate *)

(** C1.  Along every run of the gate from the empty map, each record
    holds a count between 1 and [RATE_LIMIT]; a request that finds its
    record at the limit inside the window is turned away and changes
    nothing.  When the clock does not run backwards, the requests of one
    client that are let through in the [WINDOW_MS] wide window that
    starts at its first request are at most [RATE_LIMIT], and so are
    those in every later window, which starts at the request that rolls
    the record over. *)
Theorem quota_never_exceeded :
  (∀ (trace : arrivals) key d,
     final ∅ trace !! key = Some d → 1 ≤ count d ≤ RATE_LIMIT)
  ∧ (∀ (now : Z) (counts : requestCounts) (req : request) d,
       counts !! clientIP req = Some d → now ≤ resetTime d → RATE_LIMIT ≤ count d →
       (rateLimitMiddleware now counts req).2 ≠ Next
       ∧ (rateLimitMiddleware now counts req).1 = counts)
  ∧ (∀ (prefix rest : arrivals) (now : Z) (req : request),
       chronological (prefix ++ (now, req) :: rest) →
       Forall (λ a : Z * request, clientIP a.2 ≠ clientIP req) prefix →
       passed_within (clientIP req) now (now + WINDOW_MS)
         (history ∅ (prefix ++ (now, req) :: rest)) ≤ RATE_LIMIT)
  ∧ (∀ (prefix rest : arrivals) (now : Z) (req : request),
       chronological (prefix ++ (now, req) :: rest) →
       opens_window (final ∅ prefix) now req →
       passed_within (clientIP req) now (now + WINDOW_MS)
         (history ∅ (prefix ++ (now, req) :: rest)) ≤ RATE_LIMIT).
Proof.
  split; [|split; [|split]].
  - intros trace key d H. by eapply (final_bounded trace ∅ bounded_empty).
  - intros now counts req d H Hle Hlim.
    erewrite gate_full by done. simpl. split; [apply full_not_next|done].
  - intros prefix rest now req Hsort Hfirst.
    apply window_bound; [done|].
    unfold opens_window.
    by rewrite (strangers_leave_no_record prefix (clientIP req) ∅ Hfirst), lookup_empty.
  - intros prefix rest now req Hsort Hopen. by apply window_bound.
Qed.

Lemma quota_never_exceeded_witness :
  chronological ([(0, alice); (10, bob); (20, alice)]
                 ++ (3600001, alice) :: [(3600002, alice); (3600003, bob)])
  ∧ opens_window (final ∅ [(0, alice); (10, bob); (20, alice)]) 3600001 alice
  ∧ passed_within (clientIP alice) 3600001 (3600001 + WINDOW_MS)
      (history ∅ ([(0, alice); (10, bob); (20, alice)]
                  ++ (3600001, alice) :: [(3600002, alice); (3600003, bob)]))
    ≤ RATE_LIMIT.
Proof.
  assert (chronological ([(0, alice); (10, bob); (20, alice)]
            ++ (3600001, alice) :: [(3600002, alice); (3600003, bob)])) as Hsort.
  { unfold chronological. simpl. repeat constructor; simpl; lia. }
  assert (opens_window (final ∅ [(0, alice); (10, bob); (20, alice)]) 3600001 alice)
    as Hopen.
  { vm_compute. reflexivity. }
  split; [exact Hsort|]. split; [exact Hopen|].
  exact (proj2 (proj2 (proj2 quota_never_exceeded)) _ _ _ _ Hsort Hopen).
Defined.

(** C2.  The gate decides by four branches.  No record for the client:
    a record with count 1 and [resetTime = now + WINDOW_MS] is stored and
    the request goes on.  A record whose [resetTime] lies before [now]:
    the same.  A record with [now ≤ resetTime] and [count < RATE_LIMIT]:
    the count is incremented and the request goes on.  Otherwise the
    request does not go on, the map is unchanged, and the 429 response
    carries the stored [resetTime] in ISO form (which exists whenever
    that instant is in the range of [Date]). *)
Theorem gate_four_branches (now : Z) (counts : requestCounts) (req : request) :
  (counts !! clientIP req = None →
   rateLimitMiddleware now counts req
   = (<[clientIP req := ClientData 1 (now + WINDOW_MS)]> counts, Next))
  ∧ (∀ d, counts !! clientIP req = Some d → now > resetTime d →
       rateLimitMiddleware now counts req
       = (<[clientIP req := ClientData 1 (now + WINDOW_MS)]> counts, Next))
  ∧ (∀ d, counts !! clientIP req = Some d → now ≤ resetTime d → count d < RATE_LIMIT →
       rateLimitMiddleware now counts req
       = (<[clientIP req := ClientData (count d + 1) (resetTime d)]> counts, Next))
  ∧ (∀ d, counts !! clientIP req = Some d →
       ¬ now > resetTime d → ¬ (now ≤ resetTime d ∧ count d < RATE_LIMIT) →
       (rateLimitMiddleware now counts req).1 = counts
       ∧ (rateLimitMiddleware now counts req).2 ≠ Next
       ∧ (∀ iso, toISOString (resetTime d) = Return iso →
            (rateLimitMiddleware now counts req).2
            = Send (RateLimited msg_rate_limit iso))
       ∧ (- MAX_TIME_VALUE ≤ resetTime d ≤ MAX_TIME_VALUE →
            ∃ iso, toISOString (resetTime d) = Return iso
                   ∧ (rateLimitMiddleware now counts req).2
                     = Send (RateLimited msg_rate_limit iso))).
Proof.
  split; [|split; [|split]].
  - apply gate_fresh.
  - intros d H Hgt. eapply gate_rollover; [done|lia].
  - intros d H Hle Hlt. by eapply gate_count.
  - intros d H Hngt Hnot.
    assert (now ≤ resetTime d) as Hle by lia.
    assert (RATE_LIMIT ≤ count d) as Hlim by lia.
    erewrite gate_full by done. simpl.
    split; [done|]. split; [apply full_not_next|]. split.
    + intros iso Hiso. by rewrite Hiso.
    + intros Hrange. destruct (toISOString_in_range _ Hrange) as [iso Hiso].
      exists iso. by rewrite Hiso.
Qed.

Lemma gate_four_branches_witness :
  rateLimitMiddleware 1000 ∅ alice
  = (<[clientIP alice := ClientData 1 (1000 + WINDOW_MS)]> ∅, Next)
  ∧ rateLimitMiddleware 3600001 alice_busy alice
    = (<[clientIP alice := ClientData 1 (3600001 + WINDOW_MS)]> alice_busy, Next)
  ∧ rateLimitMiddleware 3600000 alice_busy alice
    = (<[clientIP alice := ClientData (7 + 1) 3600000]> alice_busy, Next)
  ∧ (rateLimitMiddleware 3600000 alice_exhausted alice).2
    = Send (RateLimited msg_rate_limit "1970-01-01T01:00:00.000Z").
Proof.
  split; [|split; [|split]].
  - apply (proj1 (gate_four_branches 1000 ∅ alice)). reflexivity.
  - apply (proj1 (proj2 (gate_four_branches 3600001 alice_busy alice))
             (ClientData 7 3600000)); [reflexivity | simpl; lia].
  - apply (proj1 (proj2 (proj2 (gate_four_branches 3600000 alice_busy alice)))
             (ClientData 7 3600000)); [reflexivity | simpl; lia | vm_compute; reflexivity].
  - apply (proj2 (proj2 (proj2 (gate_four_branches 3600000 alice_exhausted alice)))
             (ClientData 50 3600000)).
    + reflexivity.
    + simpl. lia.
    + vm_compute. intros [_ H]. discriminate H.
    + reflexivity.
Defined.

(** A record at the limit is left alone by every request that comes
    before its window ends, and by every request of another client. *)
Lemma exhausted_record_kept (between : arrivals) :
  ∀ (counts : requestCounts) key d,
    counts !! key = Some d → RATE_LIMIT ≤ count d →
    Forall (λ a : Z * request, clientIP a.2 = key → a.1 ≤ resetTime d) between →
    final counts between !! key = Some d.
Proof.
  induction between as [|[now req] rest IH]; intros counts key d Hd Hlim Hall; simpl.
  { done. }
  inversion Hall as [|? ? Hhead Hrest]; subst. simpl in Hhead.
  apply IH; [|done|done].
  destruct (decide (key = clientIP req)) as [->|Hne].
  - erewrite gate_full; [done|done| |done]. by apply Hhead.
  - by rewrite gate_other.
Qed.

(** What a request that was answered by 429 tells about the map. *)
Lemma rejected_inv (now : Z) (counts : requestCounts) (req : request) msg iso :
  (rateLimitMiddleware now counts req).2 = Send (RateLimited msg iso) →
  ∃ d, counts !! clientIP req = Some d
       ∧ now ≤ resetTime d ∧ RATE_LIMIT ≤ count d
       ∧ toISOString (resetTime d) = Return iso
       ∧ msg = msg_rate_limit.
Proof.
  destruct (gate_cases now counts req) as [H|d H ?|d H ? ?|d H ? ?].
  - by rewrite gate_fresh.
  - by erewrite gate_rollover.
  - by erewrite gate_count.
  - erewrite gate_full by done. simpl. intros Hv. exists d.
    destruct (toISOString (resetTime d)); naive_solver.
Qed.

(** C3.  When the gate answers 429, the [resetTime] of the response is
    the ISO form of the [resetTime] stored for the client, which is
    still stored afterwards.  The next request of that client that comes
    strictly after this instant (whatever other clients did meanwhile,
    and however often the client itself was turned away before that
    instant) goes on, and the record is reset to count 1 with a new
    window. *)
Theorem rejection_reports_stored_reset
    (now : Z) (counts : requestCounts) (req : request) msg iso :
  (rateLimitMiddleware now counts req).2 = Send (RateLimited msg iso) →
  ∃ d, counts !! clientIP req = Some d
       ∧ (rateLimitMiddleware now counts req).1 !! clientIP req = Some d
       ∧ toISOString (resetTime d) = Return iso
       ∧ http_status (RateLimited msg iso) = 429
       ∧ ∀ (between : arrivals) (now' : Z) (req' : request),
           clientIP req' = clientIP req →
           Forall (λ a : Z * request,
                     clientIP a.2 = clientIP req → a.1 ≤ resetTime d) between →
           resetTime d < now' →
           rateLimitMiddleware now'
             (final (rateLimitMiddleware now counts req).1 between) req'
           = (<[clientIP req := ClientData 1 (now' + WINDOW_MS)]>
                (final (rateLimitMiddleware now counts req).1 between),
              Next).
Proof.
  intros Hv. destruct (rejected_inv _ _ _ _ _ Hv) as (d & Hd & Hle & Hlim & Hiso & ->).
  exists d.
  assert ((rateLimitMiddleware now counts req).1 = counts) as Hsame.
  { apply gate_blocked. by rewrite Hv. }
  rewrite Hsame. repeat split; try done.
  intros between now' req' Hkey Hall Hlater.
  rewrite <- Hkey in *.
  eapply gate_rollover; [|done].
  by apply exhausted_record_kept.
Qed.

Lemma rejection_reports_stored_reset_witness :
  (rateLimitMiddleware 5000 alice_exhausted alice).2
  = Send (RateLimited msg_rate_limit "1970-01-01T01:00:00.000Z")
  ∧ ∃ d, alice_exhausted !! clientIP alice = Some d
       ∧ (rateLimitMiddleware 5000 alice_exhausted alice).1 !! clientIP alice = Some d
       ∧ toISOString (resetTime d) = Return "1970-01-01T01:00:00.000Z"%string
       ∧ http_status (RateLimited msg_rate_limit "1970-01-01T01:00:00.000Z") = 429
       ∧ ∀ (between : arrivals) (now' : Z) (req' : request),
           clientIP req' = clientIP alice →
           Forall (λ a : Z * request,
                     clientIP a.2 = clientIP alice → a.1 ≤ resetTime d) between →
           resetTime d < now' →
           rateLimitMiddleware now'
             (final (rateLimitMiddleware 5000 alice_exhausted alice).1 between) req'
           = (<[clientIP alice := ClientData 1 (now' + WINDOW_MS)]>
                (final (rateLimitMiddleware 5000 alice_exhausted alice).1 between),
              Next).
Proof.
  split; [reflexivity|].
  apply (rejection_reports_stored_reset 5000 alice_exhausted alice
           msg_rate_limit "1970-01-01T01:00:00.000Z").
  reflexivity.
Defined.

(** C9.  A request that the gate does not let through leaves the whole
    map, and so the record of its client, as it was: on the branch that
    answers 429 neither [count] nor [resetTime] is written. *)
Theorem rejection_changes_nothing
    (now : Z) (counts : requestCounts) (req : request) :
  ((rateLimitMiddleware now counts req).2 ≠ Next →
   (rateLimitMiddleware now counts req).1 = counts)
  ∧ (∀ d, counts !! clientIP req = Some d →
          now ≤ resetTime d → RATE_LIMIT ≤ count d →
          (rateLimitMiddleware now counts req).2 ≠ Next
          ∧ (rateLimitMiddleware now counts req).1 = counts
          ∧ (rateLimitMiddleware now counts req).1 !! clientIP req = Some d).
Proof.
  split; [apply gate_blocked|].
  intros d H Hle Hlim. erewrite gate_full by done. simpl.
  split; [apply full_not_next|done].
Qed.

Lemma rejection_changes_nothing_witness :
  (rateLimitMiddleware 5000 alice_exhausted alice).2 ≠ Next
  ∧ (rateLimitMiddleware 5000 alice_exhausted alice).1 = alice_exhausted
  ∧ (rateLimitMiddleware 5000 alice_exhausted alice).1 !! clientIP alice
    = Some (ClientData 50 3600000).
Proof.
  apply (proj2 (rejection_changes_nothing 5000 alice_exhausted alice)
           (ClientData 50 3600000)).
  - reflexivity.
  - simpl. lia.
  - vm_compute. discriminate.
Defined.

(** * Properties of the image path *)

Section Sanitizer.
Implicit Types (s t : jsstring) (c : N).

Lemma strip_app s t : strip (s ++ t) = strip s ++ strip t.
Proof. apply List.filter_app. Qed.

Lemma strip_whitelisted s : Forall (λ c, whitelisted c = true) (strip s).
Proof.
  apply Forall_forall. intros c Hin.
  apply list_elem_of_In, List.filter_In in Hin. tauto.
Qed.

Lemma trimStart_split s :
  ∃ l, s = l ++ trimStart s ∧ Forall (λ c, is_space c = true) l.
Proof.
  induction s as [|c s (l & Hs & Hl)]; simpl.
  - by exists [].
  - destruct (is_space c) eqn:Hc.
    + exists (c :: l). split; [by rewrite <- app_comm_cons, <- Hs|by constructor].
    + by exists [].
Qed.

Lemma trimStart_head s : starts_with_space (trimStart s) = false.
Proof.
  induction s as [|c s IH]; simpl; [done|].
  destruct (is_space c) eqn:Hc; [done|]. simpl. by rewrite Hc.
Qed.

Lemma trimEnd_split s :
  ∃ r, s = trimEnd s ++ r ∧ Forall (λ c, is_space c = true) r.
Proof.
  destruct (trimStart_split (rev s)) as (l & Hs & Hl).
  exists (rev l). split.
  - unfold trimEnd. rewrite <- rev_app_distr, <- Hs. by rewrite rev_involutive.
  - apply Forall_forall. intros c Hin.
    apply list_elem_of_In, in_rev, list_elem_of_In in Hin.
    by eapply Forall_forall in Hl.
Qed.

Lemma trimEnd_last s : ends_with_space (trimEnd s) = false.
Proof.
  unfold ends_with_space, trimEnd. rewrite rev_involutive. apply trimStart_head.
Qed.

Lemma trimEnd_head s :
  starts_with_space s = false → starts_with_space (trimEnd s) = false.
Proof.
  intros Hs. destruct (trimEnd_split s) as (r & Heq & _).
  destruct (trimEnd s) as [|c t]; [done|].
  rewrite Heq in Hs. exact Hs.
Qed.

Lemma trim_spec s :
  ∃ l r, s = l ++ trim s ++ r
         ∧ Forall (λ c, is_space c = true) l
         ∧ Forall (λ c, is_space c = true) r
         ∧ starts_with_space (trim s) = false
         ∧ ends_with_space (trim s) = false.
Proof.
  destruct (trimStart_split s) as (l & Hl & Hlsp).
  destruct (trimEnd_split (trimStart s)) as (r & Hr & Hrsp).
  exists l, r. unfold trim. repeat split; try done.
  - by rewrite <- Hr.
  - apply trimEnd_head, trimStart_head.
  - apply trimEnd_last.
Qed.

Lemma trimStart_spaces s : Forall (λ c, is_space c = true) s → trimStart s = [].
Proof. induction 1 as [|c s Hc _ IH]; simpl; [done|]. by rewrite Hc. Qed.

Lemma clean_whitelisted s : Forall (λ c, whitelisted c = true) (cleanPrompt s).
Proof.
  unfold cleanPrompt.
  destruct (trim_spec (strip s)) as (l & r & Heq & _).
  pose proof (strip_whitelisted s) as H. rewrite Heq in H.
  apply Forall_app in H as [_ H]. by apply Forall_app in H as [H _].
Qed.

(** A prompt made of white space and of characters outside the
    whitelist is cleaned to the empty string. *)
Lemma clean_nothing_left s :
  Forall (λ c, whitelisted c = false ∨ is_space c = true) s → cleanPrompt s = [].
Proof.
  intros Hs. unfold cleanPrompt, trim.
  assert (Forall (λ c, is_space c = true) (strip s)) as Hsp.
  { apply Forall_forall. intros c Hin.
    apply list_elem_of_In, List.filter_In in Hin as [Hin Hw].
    apply list_elem_of_In in Hin. eapply Forall_forall in Hs; [|done].
    destruct Hs; congruence. }
  by rewrite (trimStart_spaces _ Hsp).
Qed.

Lemma whitelisted_cases c :
  whitelisted c = true →
  (65 ≤ c ≤ 90 ∨ 97 ≤ c ≤ 122 ∨ 48 ≤ c ≤ 57 ∨ c = 95 ∨ c = 44 ∨ c = 45
   ∨ c < 55296 ∨ c = 65279)%N.
Proof.
  unfold whitelisted, is_word, is_space, between.
  rewrite !orb_true_iff, !andb_true_iff, !N.leb_le, !N.eqb_eq. lia.
Qed.

Lemma whitelisted_no_surrogate c :
  whitelisted c = true → unreserved c = false →
  low_surrogate c = false ∧ high_surrogate c = false.
Proof.
  intros Hw _. apply whitelisted_cases in Hw.
  unfold low_surrogate, high_surrogate, between.
  rewrite !andb_false_iff, !N.leb_gt. lia.
Qed.

(** [encodeURIComponent] does not throw on a cleaned prompt. *)
Lemma encode_whitelisted s :
  Forall (λ c, whitelisted c = true) s → ∃ e, encodeURIComponent s = Return e.
Proof.
  induction 1 as [|c s Hc _ [e IH]]; simpl; [eauto|].
  destruct (unreserved c) eqn:Hu.
  - rewrite IH. simpl. eauto.
  - destruct (whitelisted_no_surrogate c Hc Hu) as [-> ->].
    rewrite IH. simpl. eauto.
Qed.
End Sanitizer.

Section ImagePath.
Implicit Types (req : request) (s : jsstring) (p : value).

Lemma image_handler_string req s :
  member "prompt" (body req) = Return (VStr s) → s ≠ [] →
  ∃ encoded,
    encodeURIComponent (cleanPrompt s) = Return encoded
    ∧ image_handler req
      = ([], ImageResult
               (js "https://image.pollinations.ai/prompt/" ++ encoded
                ++ js "?width=512&height=512&nologo=true&enhance=true")
               (cleanPrompt s)).
Proof.
  intros Hp Hs.
  destruct (encode_whitelisted _ (clean_whitelisted s)) as [encoded He].
  exists encoded. split; [done|].
  unfold image_handler, image_try, image_url. rewrite Hp. simpl.
  destruct s as [|c s]; [done|]. simpl. by rewrite He.
Qed.

Lemma image_handler_falsy req p :
  member "prompt" (body req) = Return p → truthy p = false →
  image_handler req = ([], Failure 400 msg_prompt_required).
Proof.
  intros Hp Hf. unfold image_handler, image_try. rewrite Hp. simpl.
  by rewrite Hf.
Qed.
End ImagePath.

(** C5.  On the prompt of the example the sanitizer keeps both spaces
    that surrounded the removed punctuation.  In general it decides
    character by character: a character is kept exactly when it is a word
    character, white space, a comma or a hyphen; of what is kept, the
    white space at both ends is dropped, and nothing else. *)
Theorem sanitizer_strips_and_trims :
  cleanPrompt (js "a cat! @#$ sitting, on-a-mat") = js "a cat  sitting, on-a-mat"
  ∧ (∀ s t, strip (s ++ t) = strip s ++ strip t)
  ∧ (∀ c, strip [c] = if whitelisted c then [c] else [])
  ∧ (∀ c, whitelisted c = is_word c || is_space c || (c =? 44)%N || (c =? 45)%N)
  ∧ (∀ prompt,
       ∃ l r, strip prompt = l ++ cleanPrompt prompt ++ r
              ∧ Forall (λ c, is_space c = true) l
              ∧ Forall (λ c, is_space c = true) r
              ∧ starts_with_space (cleanPrompt prompt) = false
              ∧ ends_with_space (cleanPrompt prompt) = false)
  ∧ (∀ prompt, Forall (λ c, whitelisted c = true) (cleanPrompt prompt)).
Proof.
  split; [by vm_compute|]. split; [apply strip_app|].
  split; [intros c; simpl; by destruct (whitelisted c)|].
  split; [done|]. split; [intros prompt; apply trim_spec|apply clean_whitelisted].
Qed.

(** C5, as stated: the sanitizer does not map the prompt of the example
    to the text with a single space between "cat" and "sitting". *)
Lemma sanitizer_example_as_stated_fails :
  cleanPrompt (js "a cat! @#$ sitting, on-a-mat") ≠ js "a cat sitting, on-a-mat".
Proof. vm_compute. discriminate. Qed.

(** C8.  A request whose prompt is a non-empty string, once let through
    by the gate, is answered without any upstream call by the URL that
    embeds the URL-encoded clean prompt between the fixed prefix and the
    fixed parameters [width=512&height=512&nologo=true&enhance=true],
    together with the clean prompt; the clean prompt is what is left of
    the prompt when the characters outside the whitelist are deleted and
    the white space at both ends is dropped.  For a prompt that is a
    string or is absent, the answer is a failure exactly when the prompt
    is absent or empty, and it is then 400 [Prompt is required].  The
    image handler never calls the upstream. *)
Theorem image_path_returns_url :
  (∀ (now : Z) (counts : requestCounts) (req : request) (s : jsstring),
     (rateLimitMiddleware now counts req).2 = Next →
     member "prompt" (body req) = Return (VStr s) → s ≠ [] →
     ∃ encoded,
       encodeURIComponent (cleanPrompt s) = Return encoded
       ∧ api_generate_image now counts req
         = ((rateLimitMiddleware now counts req).1,
            ([], ImageResult
                   (js "https://image.pollinations.ai/prompt/" ++ encoded
                    ++ js "?width=512&height=512&nologo=true&enhance=true")
                   (cleanPrompt s)))
       ∧ (∃ l r, List.filter whitelisted s = l ++ cleanPrompt s ++ r
                 ∧ Forall (λ c, is_space c = true) l
                 ∧ Forall (λ c, is_space c = true) r)
       ∧ starts_with_space (cleanPrompt s) = false
       ∧ ends_with_space (cleanPrompt s) = false
       ∧ Forall (λ c, whitelisted c = true) (cleanPrompt s))
  ∧ (∀ (req : request) (p : value),
       member "prompt" (body req) = Return p →
       p = VUndefined ∨ (∃ s, p = VStr s) →
       (http_status (image_handler req).2 ≠ 200 ↔ p = VUndefined ∨ p = VStr [])
       ∧ (p = VUndefined ∨ p = VStr [] →
          image_handler req = ([], Failure 400 msg_prompt_required)))
  ∧ (∀ (now : Z) (counts : requestCounts) (req : request),
       (image_handler req).1 = [] ∧ (api_generate_image now counts req).2.1 = []).
Proof.
  split; [|split].
  - intros now counts req s Hnext Hp Hs.
    destruct (image_handler_string req s Hp Hs) as (encoded & He & Hh).
    destruct (trim_spec (strip s)) as (l & r & Heq & Hl & Hr & Hstart & Hend).
    exists encoded. split; [done|]. split.
    { unfold api_generate_image, route. by rewrite Hnext, Hh. }
    split; [by exists l, r|]. split; [exact Hstart|]. split; [exact Hend|].
    apply clean_whitelisted.
  - intros req p Hp Htyped.
    assert (p = VUndefined ∨ p = VStr [] →
            image_handler req = ([], Failure 400 msg_prompt_required)) as Hfail.
    { intros [->| ->]; by eapply image_handler_falsy. }
    split; [|done]. split.
    + intros Hstatus. destruct Htyped as [->|[s ->]]; [by left|].
      destruct s as [|c s]; [by right|].
      destruct (image_handler_string req (c :: s) Hp) as (encoded & _ & Hh); [done|].
      by rewrite Hh in Hstatus.
    + intros H. by rewrite (Hfail H).
  - intros now counts req. split; [done|].
    unfold api_generate_image, route. simpl.
    by destruct (rateLimitMiddleware now counts req).2.
Qed.

Lemma image_path_returns_url_witness :
  api_generate_image 1000 ∅
    (image_request (VStr (js "  a cat! @#$ sitting, on-a-mat ")))
  = (<[Some "203.0.113.7"%string := ClientData 1 (1000 + WINDOW_MS)]> ∅,
     ([], ImageResult
            (js "https://image.pollinations.ai/prompt/a%20cat%20%20sitting%2C%20on-a-mat?width=512&height=512&nologo=true&enhance=true")
            (js "a cat  sitting, on-a-mat"))).
Proof.
  destruct (proj1 image_path_returns_url 1000 ∅
              (image_request (VStr (js "  a cat! @#$ sitting, on-a-mat ")))
              (js "  a cat! @#$ sitting, on-a-mat "))
    as (encoded & He & Hroute & _).
  - reflexivity.
  - reflexivity.
  - vm_compute. discriminate.
  - rewrite Hroute. vm_compute in He. injection He as <-. reflexivity.
Defined.

(** C8, as stated: a prompt that is present and not empty but is not a
    string (a number, [true], an array, an object) passes the test on
    the raw prompt, and the request then fails with the generic 500 of
    the [catch] block, although the prompt is neither missing nor
    empty. *)
Lemma present_prompt_that_is_no_string_fails :
  (truthy (VNum 5) = true
   ∧ (rateLimitMiddleware 1000 ∅ (image_request (VNum 5))).2 = Next
   ∧ (api_generate_image 1000 ∅ (image_request (VNum 5))).2
     = ([], ServerError msg_image None)
   ∧ http_status (api_generate_image 1000 ∅ (image_request (VNum 5))).2.2 = 500)
  ∧ image_handler (image_request (VBool true)) = ([], ServerError msg_image None)
  ∧ image_handler (image_request (VArr [VStr (js "a cat")]))
    = ([], ServerError msg_image None)
  ∧ image_handler (image_request (VObj [(js "text", VStr (js "a cat"))]))
    = ([], ServerError msg_image None).
Proof. vm_compute. repeat split. Qed.

(** C10.  A prompt that is not empty but is made only of white space
    and of characters outside the whitelist passes the test on the raw
    prompt, and the answer is a success whose clean prompt is empty and
    whose URL has nothing between [prompt/] and [?]. *)
Theorem blank_prompt_gives_empty_segment (req : request) (s : jsstring) :
  member "prompt" (body req) = Return (VStr s) → s ≠ [] →
  Forall (λ c, whitelisted c = false ∨ is_space c = true) s →
  cleanPrompt s = []
  ∧ image_handler req
    = ([], ImageResult
             (js "https://image.pollinations.ai/prompt/?width=512&height=512&nologo=true&enhance=true")
             []).
Proof.
  intros Hp Hs Hall.
  pose proof (clean_nothing_left s Hall) as Hclean. split; [done|].
  destruct (image_handler_string req s Hp Hs) as (encoded & He & Hh).
  rewrite Hclean in *. simpl in He. by simplify_eq.
Qed.

Lemma blank_prompt_gives_empty_segment_witness :
  (cleanPrompt (js "  !?  ") = []
   ∧ image_handler (image_request (VStr (js "  !?  ")))
     = ([], ImageResult
              (js "https://image.pollinations.ai/prompt/?width=512&height=512&nologo=true&enhance=true")
              []))
  ∧ (cleanPrompt (js "@#$%") = []
     ∧ image_handler (image_request (VStr (js "@#$%")))
       = ([], ImageResult
                (js "https://image.pollinations.ai/prompt/?width=512&height=512&nologo=true&enhance=true")
                [])).
Proof.
  split.
  - apply (blank_prompt_gives_empty_segment
             (image_request (VStr (js "  !?  "))) (js "  !?  ")).
    + reflexivity.
    + vm_compute. discriminate.
    + vm_compute js.
      repeat (constructor; [(left; reflexivity) || (right; reflexivity)|]).
      constructor.
  - apply (blank_prompt_gives_empty_segment
             (image_request (VStr (js "@#$%"))) (js "@#$%")).
    + reflexivity.
    + vm_compute. discriminate.
    + vm_compute js.
      repeat (constructor; [(left; reflexivity) || (right; reflexivity)|]).
      constructor.
Defined.

(** * Properties of the chat path *)

Section ChatPath.
Implicit Types (env : environment) (up : upstream) (req : request)
  (m data : value) (answer : upstream_response).

Local Arguments member : simpl never.
Local Arguments index0 : simpl never.

Lemma configured_some env :
  configured (GROQ_API_KEY env) = true →
  ∃ key, GROQ_API_KEY env = Some key.
Proof. destruct (GROQ_API_KEY env) as [key|]; [eauto|done]. Qed.

Lemma chat_no_key env up req :
  configured (GROQ_API_KEY env) = false →
  chat_handler env up req = ([], Failure 500 msg_configuration).
Proof. intros H. unfold chat_handler, chat_try. by rewrite H. Qed.

Lemma chat_invalid env up req m :
  configured (GROQ_API_KEY env) = true →
  member "messages" (body req) = Return m →
  truthy m = false ∨ isArray m = false →
  chat_handler env up req = ([], Failure 400 msg_messages_required).
Proof.
  intros Hk Hm Hbad. unfold chat_handler, chat_try. rewrite Hk, Hm. simpl.
  assert (negb (truthy m) || negb (isArray m) = true) as ->; [|done].
  destruct Hbad as [-> | ->]; [done|]. by rewrite orb_true_r.
Qed.

(** A request that passes both tests is sent upstream, once. *)
Lemma chat_forwarded env up req key elems :
  GROQ_API_KEY env = Some key → configured (Some key) = true →
  member "messages" (body req) = Return (VArr elems) →
  import_node_fetch up = Return () →
  chat_try env up req
  = ([chat_call key (VArr elems)],
     answer ← fetch up (chat_call key (VArr elems)); relay answer).
Proof.
  intros Hkey Hk Hm Himport. unfold chat_try.
  rewrite Hkey, Hk, Hm, Himport. done.
Qed.

Lemma relay_error_status answer errorData :
  ok answer = false → text answer = Return errorData →
  relay answer = Return (Failure (status answer) (errorMessage (status answer))).
Proof. intros Hok Ht. unfold relay. by rewrite Hok, Ht. Qed.

Lemma relay_incomplete answer data :
  ok answer = true → json answer = Return data →
  data ≠ VNull → data ≠ VUndefined →
  first_choice_has_message data = false →
  relay answer = Return (Failure 500 msg_incomplete).
Proof.
  intros Hok Hj Hnull Hundef Hshape. unfold relay. rewrite Hok, Hj. simpl.
  unfold first_choice_has_message in Hshape.
  destruct (member "choices" data) as [choices|e] eqn:Hc.
  2:{ by destruct data. }
  simpl. destruct (truthy choices) eqn:Htc; [|done]. simpl in *.
  destruct (index0 choices) as [choice|e] eqn:Hi.
  2:{ by destruct choices. }
  simpl. destruct (truthy choice) eqn:Hcc; [|done]. simpl in *.
  destruct (member "message" choice) as [message|e] eqn:Hmsg.
  2:{ by destruct choice. }
  simpl. by rewrite Hshape.
Qed.

Lemma relay_payload answer data :
  ok answer = true → json answer = Return data →
  first_choice_has_message data = true →
  relay answer = Return (ChatResult data).
Proof.
  intros Hok Hj Hshape. unfold relay. rewrite Hok, Hj. simpl.
  unfold first_choice_has_message in Hshape.
  destruct (member "choices" data) as [choices|e]; [|done].
  apply andb_true_iff in Hshape as [Hchoices Hshape]. simpl. rewrite Hchoices.
  destruct (index0 choices) as [choice|e]; [|done].
  apply andb_true_iff in Hshape as [Hchoice Hshape]. simpl. rewrite Hchoice.
  destruct (member "message" choice) as [message|e]; [|done].
  simpl. by rewrite Hshape.
Qed.
End ChatPath.

(** C4.  With the credential configured, a chat request whose
    [messages] value is absent, or is any value that is not an array, is
    answered by 400 [Invalid request: messages array required] and no
    call to the upstream is made. *)
Theorem chat_rejects_missing_messages
    (env : environment) (up : upstream) (req : request) (m : value) :
  configured (GROQ_API_KEY env) = true →
  member "messages" (body req) = Return m →
  truthy m = false ∨ isArray m = false →
  chat_handler env up req = ([], Failure 400 msg_messages_required)
  ∧ category_of (chat_handler env up req).2 = Some invalid_input
  ∧ http_status (chat_handler env up req).2 = 400
  ∧ (chat_handler env up req).1 = [].
Proof.
  intros Hk Hm Hbad. by rewrite (chat_invalid env up req m Hk Hm Hbad).
Qed.

Lemma chat_rejects_missing_messages_witness :
  (chat_handler env_ok (up_answering (UpstreamResponse 200 (Return []) (Return payload_ok)))
     (Request None None None (VObj []))
   = ([], Failure 400 msg_messages_required)
   ∧ category_of
       (chat_handler env_ok
          (up_answering (UpstreamResponse 200 (Return []) (Return payload_ok)))
          (Request None None None (VObj []))).2 = Some invalid_input
   ∧ http_status
       (chat_handler env_ok
          (up_answering (UpstreamResponse 200 (Return []) (Return payload_ok)))
          (Request None None None (VObj []))).2 = 400
   ∧ (chat_handler env_ok
        (up_answering (UpstreamResponse 200 (Return []) (Return payload_ok)))
        (Request None None None (VObj []))).1 = [])
  ∧ (chat_handler env_ok (up_answering (UpstreamResponse 200 (Return []) (Return payload_ok)))
       (chat_request (VStr (js "hello")))
     = ([], Failure 400 msg_messages_required)
     ∧ category_of
         (chat_handler env_ok
            (up_answering (UpstreamResponse 200 (Return []) (Return payload_ok)))
            (chat_request (VStr (js "hello")))).2 = Some invalid_input
     ∧ http_status
         (chat_handler env_ok
            (up_answering (UpstreamResponse 200 (Return []) (Return payload_ok)))
            (chat_request (VStr (js "hello")))).2 = 400
     ∧ (chat_handler env_ok
          (up_answering (UpstreamResponse 200 (Return []) (Return payload_ok)))
          (chat_request (VStr (js "hello")))).1 = []).
Proof.
  split.
  - apply (chat_rejects_missing_messages env_ok _ (Request None None None (VObj []))
             VUndefined); [reflexivity | reflexivity | left; reflexivity].
  - apply (chat_rejects_missing_messages env_ok _ (chat_request (VStr (js "hello")))
             (VStr (js "hello"))); [reflexivity | reflexivity | right; reflexivity].
Defined.

(** C4, as stated: an empty array is let through both tests, and the
    request is sent upstream; and without the credential an absent
    [messages] value is answered by the configuration error, not by
    400. *)
Lemma chat_empty_messages_forwarded :
  (let r := chat_handler env_ok
              (up_answering (UpstreamResponse 200 (Return []) (Return payload_ok)))
              (chat_request (VArr [])) in
   r = ([chat_call "gsk_test" (VArr [])], ChatResult payload_ok)
   ∧ r.1 ≠ []
   ∧ category_of r.2 ≠ Some invalid_input
   ∧ http_status r.2 ≠ 400)
  ∧ (let r := chat_handler env_without_key
                (up_answering (UpstreamResponse 200 (Return []) (Return payload_ok)))
                (Request None None None (VObj [])) in
     r = ([], Failure 500 msg_configuration)
     ∧ category_of r.2 ≠ Some invalid_input).
Proof. vm_compute. repeat split; discriminate. Qed.

(** C7.  Without the credential (the variable unset or empty) the chat
    handler answers at once by 500 [Server configuration error: API Key
    not found]; neither the handler nor the whole route makes a call to
    the upstream. *)
Theorem chat_without_credential
    (env : environment) (up : upstream) (req : request) :
  configured (GROQ_API_KEY env) = false →
  chat_handler env up req = ([], Failure 500 msg_configuration)
  ∧ category_of (chat_handler env up req).2 = Some configuration
  ∧ length (chat_handler env up req).1 = 0%nat
  ∧ ∀ (now : Z) (counts : requestCounts),
      length (api_chat env up now counts req).2.1 = 0%nat
      ∧ ((rateLimitMiddleware now counts req).2 = Next →
         (api_chat env up now counts req).2 = ([], Failure 500 msg_configuration)).
Proof.
  intros Hk. pose proof (chat_no_key env up req Hk) as Hh.
  rewrite Hh. repeat split; try done.
  - unfold api_chat, route. simpl.
    destruct (rateLimitMiddleware now counts req).2; [by rewrite Hh|done|done].
  - intros Hnext. unfold api_chat, route. simpl. by rewrite Hnext.
Qed.

Lemma chat_without_credential_witness :
  chat_handler env_without_key
    (up_answering (UpstreamResponse 200 (Return []) (Return payload_ok)))
    (chat_request one_message)
  = ([], Failure 500 msg_configuration)
  ∧ category_of
      (chat_handler env_without_key
         (up_answering (UpstreamResponse 200 (Return []) (Return payload_ok)))
         (chat_request one_message)).2 = Some configuration
  ∧ length
      (chat_handler env_without_key
         (up_answering (UpstreamResponse 200 (Return []) (Return payload_ok)))
         (chat_request one_message)).1 = 0%nat
  ∧ ∀ (now : Z) (counts : requestCounts),
      length
        (api_chat env_without_key
           (up_answering (UpstreamResponse 200 (Return []) (Return payload_ok)))
           now counts (chat_request one_message)).2.1 = 0%nat
      ∧ ((rateLimitMiddleware now counts (chat_request one_message)).2 = Next →
         (api_chat env_without_key
            (up_answering (UpstreamResponse 200 (Return []) (Return payload_ok)))
            now counts (chat_request one_message)).2
         = ([], Failure 500 msg_configuration)).
Proof.
  apply (chat_without_credential env_without_key
           (up_answering (UpstreamResponse 200 (Return []) (Return payload_ok)))
           (chat_request one_message)).
  reflexivity.
Defined.

Lemma category_of_errorMessage (code : Z) :
  category_of (Failure code (errorMessage code))
  = Some (if code =? 401 then auth_failure
          else if code =? 429 then upstream_overloaded
          else if code =? 400 then invalid_input
          else upstream_error).
Proof.
  unfold errorMessage.
  destruct (code =? 401); [by vm_compute|].
  destruct (code =? 429); [by vm_compute|].
  destruct (code =? 400); by vm_compute.
Qed.

(** C6.  For a chat request that reaches the upstream call and gets an
    answer: a status outside 200..299 whose error body could be read is
    passed on with the message of its category, 401 authentication, 429
    overloaded, 400 invalid input, anything else upstream error; a status
    in 200..299 whose body parses to a value other than [null] in which
    [choices[0].message] is missing or falsy gives 500 with the message
    of a malformed upstream response; a status in 200..299 whose body
    parses to a value with a truthy [choices[0].message] is answered by
    that very value. *)
Theorem upstream_answer_mapping
    (env : environment) (up : upstream) (req : request)
    (key : string) (elems : list value) (answer : upstream_response) :
  GROQ_API_KEY env = Some key → configured (Some key) = true →
  member "messages" (body req) = Return (VArr elems) →
  import_node_fetch up = Return () →
  fetch up (chat_call key (VArr elems)) = Return answer →
  (chat_handler env up req).1 = [chat_call key (VArr elems)]
  ∧ (∀ errorData,
       ¬ (200 ≤ status answer < 300) → text answer = Return errorData →
       (chat_handler env up req).2
       = Failure (status answer) (errorMessage (status answer))
       ∧ (status answer = 401 →
          (chat_handler env up req).2 = Failure 401 msg_authentication
          ∧ category_of (chat_handler env up req).2 = Some auth_failure)
       ∧ (status answer = 429 →
          (chat_handler env up req).2 = Failure 429 msg_overloaded
          ∧ category_of (chat_handler env up req).2 = Some upstream_overloaded)
       ∧ (status answer = 400 →
          (chat_handler env up req).2 = Failure 400 msg_bad_question
          ∧ category_of (chat_handler env up req).2 = Some invalid_input)
       ∧ (status answer ≠ 401 → status answer ≠ 429 → status answer ≠ 400 →
          (chat_handler env up req).2 = Failure (status answer) msg_connection
          ∧ category_of (chat_handler env up req).2 = Some upstream_error))
  ∧ (∀ data,
       200 ≤ status answer < 300 → json answer = Return data →
       data ≠ VNull → data ≠ VUndefined →
       first_choice_has_message data = false →
       (chat_handler env up req).2 = Failure 500 msg_incomplete
       ∧ category_of (chat_handler env up req).2 = Some malformed_upstream_response)
  ∧ (∀ data,
       200 ≤ status answer < 300 → json answer = Return data →
       first_choice_has_message data = true →
       (chat_handler env up req).2 = ChatResult data).
Proof.
  intros Hkey Hk Hm Himport Hfetch.
  unfold chat_handler.
  rewrite (chat_forwarded env up req key elems Hkey Hk Hm Himport), Hfetch.
  simpl. split; [done|]. split; [|split].
  - intros errorData Hstatus Htext.
    assert (ok answer = false) as Hok.
    { unfold ok. apply andb_false_iff. rewrite Z.leb_gt, Z.ltb_ge. lia. }
    rewrite (relay_error_status answer errorData Hok Htext).
    split; [done|].
    pose proof (category_of_errorMessage (status answer)) as Hcat.
    split; [|split; [|split]].
    + intros Hs. rewrite Hcat, Hs. done.
    + intros Hs. rewrite Hcat, Hs. done.
    + intros Hs. rewrite Hcat, Hs. done.
    + intros H1 H2 H3. rewrite Hcat. unfold errorMessage.
      by rewrite !(proj2 (Z.eqb_neq _ _)).
  - intros data Hstatus Hj Hnull Hundef Hshape.
    assert (ok answer = true) as Hok.
    { unfold ok. apply andb_true_iff. rewrite Z.leb_le, Z.ltb_lt. lia. }
    by rewrite (relay_incomplete answer data Hok Hj Hnull Hundef Hshape).
  - intros data Hstatus Hj Hshape.
    assert (ok answer = true) as Hok.
    { unfold ok. apply andb_true_iff. rewrite Z.leb_le, Z.ltb_lt. lia. }
    by rewrite (relay_payload answer data Hok Hj Hshape).
Qed.

Lemma upstream_answer_mapping_witness :
  (chat_handler env_ok
     (up_answering (UpstreamResponse 401 (Return (js "denied")) (Throw TypeError)))
     (chat_request one_message)).2
  = Failure 401 msg_authentication
  ∧ (chat_handler env_ok
       (up_answering (UpstreamResponse 200 (Return []) (Return (VObj [(js "choices", VArr [])]))))
       (chat_request one_message)).2
    = Failure 500 msg_incomplete
  ∧ (chat_handler env_ok
       (up_answering (UpstreamResponse 200 (Return []) (Return payload_ok)))
       (chat_request one_message)).2
    = ChatResult payload_ok.
Proof.
  split; [|split].
  - refine (proj1 (proj1 (proj2 (proj1 (proj2
      (upstream_answer_mapping env_ok
         (up_answering (UpstreamResponse 401 (Return (js "denied")) (Throw TypeError)))
         (chat_request one_message) "gsk_test"
         [VObj [(js "role", VStr (js "user")); (js "content", VStr (js "hi"))]]
         (UpstreamResponse 401 (Return (js "denied")) (Throw TypeError))
         eq_refl eq_refl eq_refl eq_refl eq_refl))
      (js "denied") _ eq_refl)) eq_refl)).
    simpl. lia.
  - refine (proj1 (proj1 (proj2 (proj2
      (upstream_answer_mapping env_ok
         (up_answering (UpstreamResponse 200 (Return []) (Return (VObj [(js "choices", VArr [])]))))
         (chat_request one_message) "gsk_test"
         [VObj [(js "role", VStr (js "user")); (js "content", VStr (js "hi"))]]
         (UpstreamResponse 200 (Return []) (Return (VObj [(js "choices", VArr [])])))
         eq_refl eq_refl eq_refl eq_refl eq_refl)))
      (VObj [(js "choices", VArr [])]) _ eq_refl _ _ eq_refl)).
    + simpl. lia.
    + discriminate.
    + discriminate.
  - refine (proj2 (proj2 (proj2
      (upstream_answer_mapping env_ok
         (up_answering (UpstreamResponse 200 (Return []) (Return payload_ok)))
         (chat_request one_message) "gsk_test"
         [VObj [(js "role", VStr (js "user")); (js "content", VStr (js "hi"))]]
         (UpstreamResponse 200 (Return []) (Return payload_ok))
         eq_refl eq_refl eq_refl eq_refl eq_refl)))
      payload_ok _ eq_refl eq_refl).
    simpl. lia.
Defined.

(** C6, as stated: a 200 answer whose body is the JSON value [null], or
    is not JSON at all, has no choice with a message, yet the handler
    answers by the generic server error, not by the message of a
    malformed upstream response; and a 401 answer whose body cannot be
    read ends in the same generic error. *)
Lemma null_body_is_server_error :
  (first_choice_has_message VNull = false
   ∧ let r := chat_handler env_ok
                (up_answering (UpstreamResponse 200 (Return (js "null")) (Return VNull)))
                (chat_request one_message) in
     r = ([chat_call "gsk_test" one_message], ServerError msg_server None)
     ∧ category_of r.2 = Some internal_error
     ∧ category_of r.2 ≠ Some malformed_upstream_response)
  ∧ (let r := chat_handler env_ok
                (up_answering (UpstreamResponse 200 (Return (js "<html>"))
                                 (Throw (Rejected "invalid json response body"))))
                (chat_request one_message) in
     r = ([chat_call "gsk_test" one_message], ServerError msg_server None)
     ∧ category_of r.2 ≠ Some malformed_upstream_response)
  ∧ (let r := chat_handler env_ok
                (up_answering (UpstreamResponse 401 (Throw (Rejected "premature close"))
                                 (Throw (Rejected "premature close"))))
                (chat_request one_message) in
     r = ([chat_call "gsk_test" one_message], ServerError msg_server None)
     ∧ category_of r.2 ≠ Some auth_failure).
Proof. vm_compute. repeat split; discriminate. Qed.

(** * Worked examples for the further definitions *)

Example includes_origin :
  includes (js "anuwatkoon.com") (js "http://www.anuwatkoon.com") = true.
Proof. reflexivity. Qed.

Example includes_other_domain :
  includes (js "anuwatkoon.com") (js "https://ai-backend-demo.vercel.app") = false.
Proof. reflexivity. Qed.

Example includes_empty_needle : includes [] (js "abc") = true ∧ includes [] [] = true.
Proof. split; reflexivity. Qed.

Example self_test_array_field :
  testSyntaxFix
    (Return (HealthResponse 200 (Some (js "http://www.anuwatkoon.com"))
               (Return (VObj [(js "cors", VArr [VStr (js "anuwatkoon.com")])]))))
  = VBool true.
Proof. reflexivity. Qed.

Example self_test_number_field :
  testSyntaxFix
    (Return (HealthResponse 200 (Some (js "http://www.anuwatkoon.com"))
               (Return (VObj [(js "cors", VNum 1)]))))
  = VBool false.
Proof. reflexivity. Qed.

Example self_test_server_error :
  testSyntaxFix (Return (HealthResponse 503 None (Throw TypeError))) = VBool false.
Proof. reflexivity. Qed.

Example stats_after_three_requests :
  stats_handler env_ok (125 # 10) VNull (final ∅ [(0, alice); (1, bob); (2, alice)])
  = Stats 2 (125 # 10) VNull "production".
Proof. by vm_compute. Qed.

Example stats_default_environment :
  environment_name (stats_handler env_without_key 0 VNull ∅) = "development"%string.
Proof. reflexivity. Qed.

(** * Further properties of the quota gate *)

Section GateMore.
Implicit Types (now lo hi : Z) (counts : requestCounts) (req : request)
  (d : clientData) (key : option string) (trace : arrivals).

Set Warnings "-clear-no-such-hyp".

(** The gate always leaves a record for the client it served. *)
Lemma gate_dom now counts req :
  dom (rateLimitMiddleware now counts req).1 = {[clientIP req]} ∪ dom counts.
Proof.
  destruct (gate_cases now counts req) as [H|d H ?|d H ? ?|d H ? ?].
  - rewrite gate_fresh by done. simpl. by rewrite dom_insert_L.
  - erewrite gate_rollover by done. simpl. by rewrite dom_insert_L.
  - erewrite gate_count by done. simpl. by rewrite dom_insert_L.
  - erewrite gate_full by done. simpl.
    assert (clientIP req ∈ dom counts) by (apply elem_of_dom; eauto).
    set_solver.
Qed.

Lemma final_dom trace :
  ∀ counts, dom (final counts trace) = dom counts ∪ clients trace.
Proof.
  induction trace as [|[now req] rest IH]; intros counts; simpl.
  - unfold clients. simpl. set_solver.
  - rewrite IH, gate_dom. unfold clients. simpl. set_solver.
Qed.

Set Warnings "+clear-no-such-hyp".

(** The verdict, and the new record of the client, depend on the map
    only through the record of that client. *)
Lemma gate_local now counts1 counts2 req :
  counts1 !! clientIP req = counts2 !! clientIP req →
  (rateLimitMiddleware now counts1 req).2 = (rateLimitMiddleware now counts2 req).2
  ∧ (rateLimitMiddleware now counts1 req).1 !! clientIP req
    = (rateLimitMiddleware now counts2 req).1 !! clientIP req.
Proof.
  intros Heq.
  destruct (gate_cases now counts1 req) as [H|d H ?|d H ? ?|d H ? ?];
    pose proof H as H'; rewrite Heq in H'.
  - rewrite !gate_fresh by done. simpl. by rewrite !lookup_insert_eq.
  - erewrite !gate_rollover by done. simpl. by rewrite !lookup_insert_eq.
  - erewrite !gate_count by done. simpl. by rewrite !lookup_insert_eq.
  - erewrite !gate_full by done. simpl. by rewrite H, H'.
Qed.

Lemma history_by_client trace key :
  ∀ counts1 counts2,
    counts1 !! key = counts2 !! key →
    of_client key (history counts1 trace) = history counts2 (by_client key trace)
    ∧ final counts1 trace !! key = final counts2 (by_client key trace) !! key.
Proof.
  induction trace as [|[now req] rest IH]; intros counts1 counts2 Heq; simpl; [done|].
  destruct (decide (clientIP req = key)) as [<-|Hne].
  - rewrite !bool_decide_eq_true_2 by done. simpl.
    destruct (gate_local now counts1 counts2 req Heq) as [Hv Hrec].
    destruct (IH _ _ Hrec) as [IHh IHf].
    by rewrite Hv, IHh, IHf.
  - rewrite !bool_decide_eq_false_2 by done.
    apply IH. rewrite gate_other by done. done.
Qed.

(** Inside the window of a record, requests are charged to it until the
    limit is reached. *)
Lemma window_fill key lo trace :
  ∀ counts d,
    counts !! key = Some d → count d ≤ RATE_LIMIT →
    Forall (λ a : Z * request, clientIP a.2 = key → lo ≤ a.1 ≤ resetTime d) trace →
    final counts trace !! key
    = Some (ClientData
              (Z.min (count d + Z.of_nat (length (by_client key trace))) RATE_LIMIT)
              (resetTime d))
    ∧ passed_within key lo (resetTime d) (history counts trace)
      = Z.min (count d + Z.of_nat (length (by_client key trace))) RATE_LIMIT - count d.
Proof.
  induction trace as [|[now req] rest IH]; intros counts d Hd Hlim Hall.
  { simpl. rewrite Z.add_0_r, Z.min_l by done. rewrite Hd.
    split; [by destruct d|]. unfold passed_within. simpl. lia. }
  inversion Hall as [|? ? Hhead Hrest]; subst. simpl in Hhead.
  simpl. rewrite passed_within_cons.
  destruct (decide (clientIP req = key)) as [<-|Hne].
  - rewrite bool_decide_eq_true_2 by done. specialize (Hhead eq_refl).
    destruct (Z.lt_ge_cases (count d) RATE_LIMIT) as [Hlt|Hge].
    + erewrite gate_count by (done || lia). simpl.
      destruct (IH (<[clientIP req := ClientData (count d + 1) (resetTime d)]> counts)
                  (ClientData (count d + 1) (resetTime d))) as [IHf IHp];
        [apply lookup_insert_eq|simpl; lia|done|].
      simpl in IHf, IHp. rewrite IHf, IHp.
      unfold passed_in. rewrite bool_decide_eq_true_2 by done. simpl.
      rewrite (proj2 (Z.leb_le lo now)), (proj2 (Z.leb_le now (resetTime d))) by lia.
      simpl. split; [f_equal; f_equal; lia|lia].
    + erewrite gate_full by (done || lia). simpl.
      destruct (IH counts d Hd Hlim Hrest) as [IHf IHp]. rewrite IHf, IHp.
      unfold passed_in. rewrite bool_decide_eq_true_2 by done.
      split; [f_equal; f_equal; lia|].
      destruct (toISOString (resetTime d)); simpl; lia.
  - rewrite bool_decide_eq_false_2 by done.
    destruct (IH (rateLimitMiddleware now counts req).1 d) as [IHf IHp];
      [by rewrite gate_other|done|done|].
    rewrite IHf, IHp. unfold passed_in.
    rewrite bool_decide_eq_false_2 by done. simpl. split; [done|lia].
Qed.

(** Every record was opened by a request of its client that is part of
    what was served. *)
Lemma anchored_step (seen : arrivals) now counts req :
  (∀ key d, counts !! key = Some d →
            ∃ t r, (t, r) ∈ seen ∧ clientIP r = key ∧ resetTime d = t + WINDOW_MS) →
  ∀ key d, (rateLimitMiddleware now counts req).1 !! key = Some d →
           ∃ t r, (t, r) ∈ seen ++ [(now, req)] ∧ clientIP r = key
                  ∧ resetTime d = t + WINDOW_MS.
Proof.
  intros Hinv key d Hd.
  assert (∀ d0, counts !! key = Some d0 → resetTime d = resetTime d0 →
                ∃ t r, (t, r) ∈ seen ++ [(now, req)] ∧ clientIP r = key
                       ∧ resetTime d = t + WINDOW_MS) as Hold.
  { intros d0 Hd0 Heq. destruct (Hinv key d0 Hd0) as (t & r & Hin & Hk & Hr).
    exists t, r. rewrite elem_of_app. split; [by left|]. split; [done|congruence]. }
  assert (d = ClientData 1 (now + WINDOW_MS) → key = clientIP req →
          ∃ t r, (t, r) ∈ seen ++ [(now, req)] ∧ clientIP r = key
                 ∧ resetTime d = t + WINDOW_MS) as Hnew.
  { intros -> ->. exists now, req. rewrite elem_of_app, list_elem_of_singleton.
    split; [by right|done]. }
  destruct (decide (key = clientIP req)) as [Hk|Hne].
  2:{ rewrite gate_other in Hd by done. eauto. }
  destruct (gate_cases now counts req) as [H|d' H ?|d' H ? ?|d' H ? ?].
  - rewrite gate_fresh in Hd by done. simpl in Hd. subst key.
    rewrite lookup_insert_eq in Hd. simplify_eq. by apply Hnew.
  - erewrite gate_rollover in Hd by done. simpl in Hd. subst key.
    rewrite lookup_insert_eq in Hd. simplify_eq. by apply Hnew.
  - erewrite gate_count in Hd by done. simpl in Hd. subst key.
    rewrite lookup_insert_eq in Hd. simplify_eq. by eapply Hold.
  - erewrite gate_full in Hd by done. simpl in Hd. subst key. by eapply Hold.
Qed.

Lemma anchored_run trace :
  ∀ (seen : arrivals) counts,
    (∀ key d, counts !! key = Some d →
              ∃ t r, (t, r) ∈ seen ∧ clientIP r = key ∧ resetTime d = t + WINDOW_MS) →
    ∀ key d, final counts trace !! key = Some d →
             ∃ t r, (t, r) ∈ seen ++ trace ∧ clientIP r = key
                    ∧ resetTime d = t + WINDOW_MS.
Proof.
  induction trace as [|[now req] rest IH]; intros seen counts Hinv key d Hd; simpl in Hd.
  - rewrite app_nil_r. eauto.
  - replace (seen ++ (now, req) :: rest) with ((seen ++ [(now, req)]) ++ rest)
      by (by rewrite <- app_assoc).
    eapply IH; [|done]. by apply anchored_step.
Qed.
End GateMore.

(** X1.  The number that [/api/stats] reports as [totalActiveIPs] is
    the number of distinct client keys that the gate has served since
    the server started, and serving more requests never makes it
    smaller: no record is ever removed. *)
Theorem stats_counts_distinct_clients :
  (∀ (env : environment) (uptime : Q) (memory : value) (trace : arrivals),
     totalActiveIPs (stats_handler env uptime memory (final ∅ trace))
     = Z.of_nat (size (clients trace)))
  ∧ (∀ (env : environment) (uptime : Q) (memory : value)
       (counts : requestCounts) (trace : arrivals),
       totalActiveIPs (stats_handler env uptime memory counts)
       ≤ totalActiveIPs (stats_handler env uptime memory (final counts trace)))
  ∧ (∀ (counts : requestCounts) (trace : arrivals) key,
       is_Some (counts !! key) → is_Some (final counts trace !! key)).
Proof.
  split; [|split].
  - intros env uptime memory trace. simpl.
    rewrite <- size_dom, final_dom, dom_empty_L, (left_id_L ∅ (∪)). done.
  - intros env uptime memory counts trace. simpl.
    rewrite <- !(size_dom (D := gset (option string))), final_dom.
    apply inj_le, subseteq_size, union_subseteq_l.
  - intros counts trace key Hk.
    apply elem_of_dom. rewrite final_dom. apply elem_of_union_l.
    by apply elem_of_dom.
Qed.

Lemma stats_counts_distinct_clients_witness :
  is_Some (final alice_busy [(3600001, bob); (3600002, alice)] !! clientIP alice).
Proof.
  apply (proj2 (proj2 stats_counts_distinct_clients)). vm_compute. eauto.
Defined.

(** X2.  Clients do not influence each other: what the gate answers to
    the requests of one client, and the record it keeps for that client,
    are the same as if the requests of all other clients had never
    arrived, whatever records those other clients have. *)
Theorem clients_are_independent
    (trace : arrivals) (key : option string) (counts1 counts2 : requestCounts) :
  counts1 !! key = counts2 !! key →
  of_client key (history counts1 trace) = history counts2 (by_client key trace)
  ∧ final counts1 trace !! key = final counts2 (by_client key trace) !! key.
Proof. apply history_by_client. Qed.

Lemma clients_are_independent_witness :
  of_client (clientIP alice)
    (history alice_busy [(10, alice); (20, bob); (3600001, alice)])
  = history alice_busy (by_client (clientIP alice)
                          [(10, alice); (20, bob); (3600001, alice)])
  ∧ final alice_busy [(10, alice); (20, bob); (3600001, alice)] !! clientIP alice
    = final alice_busy (by_client (clientIP alice)
                          [(10, alice); (20, bob); (3600001, alice)]) !! clientIP alice.
Proof.
  apply (clients_are_independent [(10, alice); (20, bob); (3600001, alice)]
           (clientIP alice) alice_busy alice_busy).
  reflexivity.
Defined.

(** X3.  The end of a client's window never moves backwards: whatever
    is served next, the client keeps a record, and its [resetTime] is at
    least what it was. *)
Theorem window_end_never_moves_back
    (trace : arrivals) (counts : requestCounts) (key : option string) (d : clientData) :
  counts !! key = Some d →
  ∃ d', final counts trace !! key = Some d' ∧ resetTime d ≤ resetTime d'.
Proof. intros Hd. eapply deadline_kept; [done|lia]. Qed.

Lemma window_end_never_moves_back_witness :
  ∃ d', final alice_busy [(3600001, alice); (5, alice)] !! clientIP alice = Some d'
        ∧ resetTime (ClientData 7 3600000) ≤ resetTime d'.
Proof.
  apply (window_end_never_moves_back [(3600001, alice); (5, alice)] alice_busy
           (clientIP alice) (ClientData 7 3600000)).
  reflexivity.
Defined.

(** X4.  In every map reached from the empty one, the [resetTime] of a
    record is the arrival time of some served request of that very
    client plus [WINDOW_MS]; and right after a request was served at
    [now], the record of its client ends no earlier than [now]. *)
Theorem record_anchored_at_a_request :
  (∀ (trace : arrivals) key d,
     final ∅ trace !! key = Some d →
     ∃ t r, (t, r) ∈ trace ∧ clientIP r = key ∧ resetTime d = t + WINDOW_MS)
  ∧ (∀ (now : Z) (counts : requestCounts) (req : request),
       ∃ d, (rateLimitMiddleware now counts req).1 !! clientIP req = Some d
            ∧ now ≤ resetTime d).
Proof.
  split.
  - intros trace key d Hd.
    apply (anchored_run trace [] ∅); [|done].
    intros k d0 H. by rewrite lookup_empty in H.
  - apply served_deadline.
Qed.

Lemma record_anchored_at_a_request_witness :
  ∃ t r, (t, r) ∈ [(10, alice); (20, bob); (3600011, alice)]
         ∧ clientIP r = clientIP alice
         ∧ resetTime (ClientData 1 7200011) = t + WINDOW_MS.
Proof.
  apply (proj1 record_anchored_at_a_request
           [(10, alice); (20, bob); (3600011, alice)] (clientIP alice)
           (ClientData 1 7200011)).
  reflexivity.
Defined.

(** X5.  The gate does not turn anyone away early.  When a client
    without a record sends a request at [now] and then [n] more while
    the window is open, in any order with the requests of other clients,
    exactly [min (1 + n) RATE_LIMIT] of them are let through, and the
    record ends with that count and with [resetTime = now + WINDOW_MS]. *)
Theorem fresh_window_fills_to_the_limit
    (now : Z) (counts : requestCounts) (req : request) (rest : arrivals) :
  counts !! clientIP req = None →
  Forall (λ a : Z * request,
            clientIP a.2 = clientIP req → now ≤ a.1 ≤ now + WINDOW_MS) rest →
  final counts ((now, req) :: rest) !! clientIP req
  = Some (ClientData
            (Z.min (1 + Z.of_nat (length (by_client (clientIP req) rest))) RATE_LIMIT)
            (now + WINDOW_MS))
  ∧ passed_within (clientIP req) now (now + WINDOW_MS)
      (history counts ((now, req) :: rest))
    = Z.min (1 + Z.of_nat (length (by_client (clientIP req) rest))) RATE_LIMIT.
Proof.
  intros Hnone Hall. pose proof limit_positive as Hpos. pose proof window_nonneg as Hw.
  simpl. rewrite passed_within_cons, gate_fresh by done. simpl.
  destruct (window_fill (clientIP req) now rest
              (<[clientIP req := ClientData 1 (now + WINDOW_MS)]> counts)
              (ClientData 1 (now + WINDOW_MS))) as [Hf Hp];
    [apply lookup_insert_eq|simpl; lia|done|].
  simpl in Hf, Hp. rewrite Hf, Hp. split; [done|].
  unfold passed_in. rewrite bool_decide_eq_true_2 by done. simpl.
  rewrite (proj2 (Z.leb_le now now)), (proj2 (Z.leb_le now (now + WINDOW_MS))) by lia.
  simpl. lia.
Qed.

Lemma fresh_window_fills_to_the_limit_witness :
  final ∅ ((100, alice) :: [(200, bob); (100, alice); (3600100, alice)]) !! clientIP alice
  = Some (ClientData
            (Z.min (1 + Z.of_nat (length (by_client (clientIP alice)
                                            [(200, bob); (100, alice); (3600100, alice)])))
               RATE_LIMIT)
            (100 + WINDOW_MS))
  ∧ passed_within (clientIP alice) 100 (100 + WINDOW_MS)
      (history ∅ ((100, alice) :: [(200, bob); (100, alice); (3600100, alice)]))
    = Z.min (1 + Z.of_nat (length (by_client (clientIP alice)
                                     [(200, bob); (100, alice); (3600100, alice)])))
        RATE_LIMIT.
Proof.
  apply (fresh_window_fills_to_the_limit 100 ∅ alice
           [(200, bob); (100, alice); (3600100, alice)]).
  - reflexivity.
  - repeat (constructor; [simpl; intros _; vm_compute; split; discriminate|]).
    constructor.
Defined.

(** X6.  The [X-Forwarded-For] header and the body play no part in the
    quota of a client whose [req.ip] is known: two requests with the same
    non-empty [req.ip] get the same verdict and leave the same map.  The
    socket address is used only when [req.ip] is missing or empty, and
    the header only when both are. *)
Theorem identity_prefers_ip (now : Z) (counts : requestCounts) (req1 req2 : request) :
  (∀ a s, ip req1 = Some (String a s) → ip req2 = Some (String a s) →
          clientIP req1 = Some (String a s)
          ∧ rateLimitMiddleware now counts req1 = rateLimitMiddleware now counts req2)
  ∧ (∀ a s, (ip req1 = None ∨ ip req1 = Some ""%string) →
            remoteAddress req1 = Some (String a s) →
            clientIP req1 = Some (String a s))
  ∧ ((ip req1 = None ∨ ip req1 = Some ""%string) →
     (remoteAddress req1 = None ∨ remoteAddress req1 = Some ""%string) →
     clientIP req1 = x_forwarded_for req1).
Proof.
  split; [|split].
  - intros a s H1 H2.
    assert (clientIP req1 = Some (String a s)) as Hk1.
    { unfold clientIP. by rewrite H1. }
    assert (clientIP req2 = Some (String a s)) as Hk2.
    { unfold clientIP. by rewrite H2. }
    split; [done|]. unfold rateLimitMiddleware. by rewrite Hk1, Hk2.
  - intros a s Hip Hra. unfold clientIP. rewrite Hra. by destruct Hip as [-> | ->].
  - intros Hip Hra. unfold clientIP.
    by destruct Hip as [-> | ->]; destruct Hra as [-> | ->].
Qed.

Lemma identity_prefers_ip_witness :
  clientIP alice = Some "203.0.113.7"%string
  ∧ rateLimitMiddleware 5000 alice_exhausted alice
    = rateLimitMiddleware 5000 alice_exhausted
        (Request (Some "203.0.113.7"%string) (Some "192.0.2.1"%string)
           (Some "198.51.100.99"%string) (VObj [(js "prompt", VStr (js "x"))])).
Proof.
  apply (proj1 (identity_prefers_ip 5000 alice_exhausted alice
                  (Request (Some "203.0.113.7"%string) (Some "192.0.2.1"%string)
                     (Some "198.51.100.99"%string) (VObj [(js "prompt", VStr (js "x"))])))
           "2"%char "03.0.113.7"%string); reflexivity.
Defined.

(** * Further properties of the image path *)

Section SanitizerMore.
Implicit Types (s t : jsstring) (c : N).

Lemma strip_id s : Forall (λ c, whitelisted c = true) s → strip s = s.
Proof.
  induction 1 as [|c s Hc _ IH]; [done|].
  unfold strip in *. simpl. by rewrite Hc, IH.
Qed.

Lemma trimStart_id s : starts_with_space s = false → trimStart s = s.
Proof. destruct s as [|c s]; [done|]. simpl. by intros ->. Qed.

Lemma trimEnd_id s : ends_with_space s = false → trimEnd s = s.
Proof.
  intros H. unfold trimEnd. rewrite trimStart_id by done. apply rev_involutive.
Qed.

Lemma clean_id s :
  Forall (λ c, whitelisted c = true) s →
  starts_with_space s = false → ends_with_space s = false →
  cleanPrompt s = s.
Proof.
  intros Hw Hs He. unfold cleanPrompt, trim.
  by rewrite strip_id, trimStart_id, trimEnd_id.
Qed.

Lemma strip_sublist s : strip s `sublist_of` s.
Proof.
  induction s as [|c s IH]; [done|].
  unfold strip in *. simpl. destruct (whitelisted c).
  - by apply sublist_skip.
  - by apply sublist_cons.
Qed.

Lemma clean_sublist s : cleanPrompt s `sublist_of` s.
Proof.
  unfold cleanPrompt.
  destruct (trim_spec (strip s)) as (l & r & Heq & _).
  etrans; [|apply strip_sublist].
  rewrite Heq at 2. apply sublist_inserts_l, sublist_inserts_r. done.
Qed.

Lemma between_units lo hi c : between lo hi c = true → In c (units lo hi).
Proof.
  unfold between. rewrite andb_true_iff, !N.leb_le. intros [Hlo Hhi].
  unfold units. apply in_map_iff. exists (N.to_nat (c - lo)).
  split; [lia|]. apply in_seq. lia.
Qed.

Lemma whitelisted_in_whitelist c : whitelisted c = true → In c whitelist.
Proof.
  unfold whitelisted, is_word, is_space, whitelist.
  rewrite !orb_true_iff, !in_app_iff, !N.eqb_eq.
  intros H.
  repeat match goal with
         | H : _ ∨ _ |- _ => destruct H as [H|H]
         | H : between _ _ _ = true |- _ => apply between_units in H
         end;
    subst; simpl; tauto.
Qed.

Lemma whitelist_encodes_safely : forallb encodes_safely whitelist = true.
Proof. by vm_compute. Qed.

Lemma whitelisted_encodes_safely c :
  whitelisted c = true →
  if unreserved c then url_safe c = true
  else low_surrogate c = false ∧ high_surrogate c = false
       ∧ forallb url_safe (escape c) = true.
Proof.
  intros Hw.
  pose proof (proj1 (forallb_forall _ _) whitelist_encodes_safely c
                (whitelisted_in_whitelist c Hw)) as H.
  unfold encodes_safely in H. rewrite Hw in H. simpl in H.
  destruct (unreserved c); [done|].
  apply andb_true_iff in H as [H H3]. apply andb_true_iff in H as [H1 H2].
  by rewrite (negb_true_iff _), (negb_true_iff _) in *.
Qed.

Lemma encode_safe s :
  Forall (λ c, whitelisted c = true) s →
  ∀ e, encodeURIComponent s = Return e → forallb url_safe e = true.
Proof.
  induction 1 as [|c s Hc _ IH]; intros e He; simpl in He.
  { by simplify_eq. }
  pose proof (whitelisted_encodes_safely c Hc) as Hsafe.
  destruct (unreserved c).
  - destruct (encodeURIComponent s) as [t|]; simpl in He; [|done].
    simplify_eq. simpl. rewrite Hsafe. by apply IH.
  - destruct Hsafe as (Hlow & Hhigh & Hesc). rewrite Hlow, Hhigh in He.
    destruct (encodeURIComponent s) as [t|]; simpl in He; [|done].
    simplify_eq. rewrite forallb_app, Hesc. by apply IH.
Qed.
End SanitizerMore.

(** X7.  A prompt that holds only whitelisted characters and neither
    starts nor ends with white space is left exactly as it is by the
    sanitizer. *)
Theorem clean_prompt_left_alone (s : jsstring) :
  Forall (λ c, whitelisted c = true) s →
  starts_with_space s = false → ends_with_space s = false →
  cleanPrompt s = s.
Proof. apply clean_id. Qed.

Lemma clean_prompt_left_alone_witness :
  cleanPrompt (js "red fox, slow-motion  shot_2") = js "red fox, slow-motion  shot_2".
Proof.
  apply (clean_prompt_left_alone (js "red fox, slow-motion  shot_2")).
  - vm_compute js. repeat (constructor; [reflexivity|]). constructor.
  - reflexivity.
  - reflexivity.
Defined.

(** X8.  Sanitizing is idempotent: a prompt that the sanitizer has
    produced is not changed when it is sanitized again. *)
Theorem clean_prompt_idempotent (s : jsstring) :
  cleanPrompt (cleanPrompt s) = cleanPrompt s.
Proof.
  destruct (trim_spec (strip s)) as (l & r & _ & _ & _ & Hs & He).
  apply clean_id; [apply clean_whitelisted|exact Hs|exact He].
Qed.

(** X9.  The sanitizer only deletes: the clean prompt is a subsequence
    of the prompt, with the characters that remain in their order, so it
    is never longer than the prompt. *)
Theorem clean_prompt_is_subsequence (s : jsstring) :
  cleanPrompt s `sublist_of` s ∧ (length (cleanPrompt s) ≤ length s)%nat.
Proof.
  split; [apply clean_sublist|]. apply sublist_length, clean_sublist.
Qed.

(** What a successful answer of the image handler tells. *)
Lemma image_success_inv (req : request) (log : list upstream_request)
    (imageUrl clean : jsstring) :
  image_handler req = (log, ImageResult imageUrl clean) →
  ∃ s encoded,
    member "prompt" (body req) = Return (VStr s) ∧ s ≠ []
    ∧ clean = cleanPrompt s
    ∧ encodeURIComponent clean = Return encoded
    ∧ imageUrl = js "https://image.pollinations.ai/prompt/" ++ encoded
                 ++ js "?width=512&height=512&nologo=true&enhance=true".
Proof.
  unfold image_handler, image_try, image_url. intros H.
  destruct (member "prompt" (body req)) as [p|e]; simpl in H; [|by simplify_eq].
  destruct (truthy p) eqn:Hp; simpl in H; [|by simplify_eq].
  destruct p as [| | | |s| |]; simpl in H; try by simplify_eq.
  destruct (encodeURIComponent (cleanPrompt s)) as [encoded|e] eqn:He;
    simpl in H; [|by simplify_eq].
  exists s, encoded. simplify_eq.
  repeat split; try done. by destruct s.
Qed.

(** X10.  Whenever the image handler answers with a URL, the part of
    the URL between [prompt/] and [?] is made only of letters, digits,
    underscore, hyphen and percent escapes.  So the prompt cannot end the
    path segment or add a query parameter: no [?], [&], [=], [/], [#] or
    space comes from it.  The prompt returned beside the URL holds only
    whitelisted characters. *)
Theorem image_url_segment_is_safe
    (req : request) (log : list upstream_request) (imageUrl clean : jsstring) :
  image_handler req = (log, ImageResult imageUrl clean) →
  ∃ encoded,
    imageUrl = js "https://image.pollinations.ai/prompt/" ++ encoded
               ++ js "?width=512&height=512&nologo=true&enhance=true"
    ∧ encodeURIComponent clean = Return encoded
    ∧ forallb url_safe encoded = true
    ∧ (∀ c, c ∈ js "?&=/# " → c ∉ encoded)
    ∧ Forall (λ c, whitelisted c = true) clean.
Proof.
  intros H. destruct (image_success_inv _ _ _ _ H) as (s & encoded & _ & _ & -> & He & ->).
  pose proof (encode_safe _ (clean_whitelisted s) _ He) as Hsafe.
  exists encoded. repeat split; try done; [|apply clean_whitelisted].
  intros c Hc Hin.
  assert (url_safe c = true) as Hu.
  { rewrite forallb_forall in Hsafe. by apply Hsafe, list_elem_of_In. }
  vm_compute js in Hc.
  repeat (apply elem_of_cons in Hc as [->|Hc]; [by vm_compute in Hu|]).
  by apply elem_of_nil in Hc.
Qed.

Lemma image_url_segment_is_safe_witness :
  ∃ encoded,
    js "https://image.pollinations.ai/prompt/a%20cat%2Cx1?width=512&height=512&nologo=true&enhance=true"
    = js "https://image.pollinations.ai/prompt/" ++ encoded
      ++ js "?width=512&height=512&nologo=true&enhance=true"
    ∧ encodeURIComponent (js "a cat,x1") = Return encoded
    ∧ forallb url_safe encoded = true
    ∧ (∀ c, c ∈ js "?&=/# " → c ∉ encoded)
    ∧ Forall (λ c, whitelisted c = true) (js "a cat,x1").
Proof.
  apply (image_url_segment_is_safe
           (image_request (VStr (js " a cat?&,x=1 ")))
           []
           (js "https://image.pollinations.ai/prompt/a%20cat%2Cx1?width=512&height=512&nologo=true&enhance=true")
           (js "a cat,x1")).
  reflexivity.
Defined.

(** * Further properties of the chat path and of the routes *)

Section ChatMore.
Implicit Types (env : environment) (up : upstream) (req : request)
  (answer : upstream_response) (data : value).

Local Arguments member : simpl never.
Local Arguments index0 : simpl never.

(** The ways in which the [try] block of the chat handler can end. *)
Lemma chat_try_cases env up req :
  (chat_try env up req).1 = []
  ∧ ((chat_try env up req).2 = Return (Failure 500 msg_configuration)
     ∨ (chat_try env up req).2 = Return (Failure 400 msg_messages_required)
     ∨ ∃ e, (chat_try env up req).2 = Throw e)
  ∨ ∃ key elems,
      GROQ_API_KEY env = Some key ∧ configured (Some key) = true
      ∧ member "messages" (body req) = Return (VArr elems)
      ∧ import_node_fetch up = Return ()
      ∧ chat_try env up req
        = ([chat_call key (VArr elems)],
           answer ← fetch up (chat_call key (VArr elems)); relay answer).
Proof.
  unfold chat_try.
  destruct (GROQ_API_KEY env) as [key|] eqn:Hkey; [|left; simpl; eauto].
  destruct (configured (Some key)) eqn:Hk; [|left; simpl; eauto].
  simpl. destruct (member "messages" (body req)) as [m|e] eqn:Hm; [|left; simpl; eauto].
  destruct (negb (truthy m) || negb (isArray m)) eqn:Hbad; [left; simpl; eauto|].
  apply orb_false_iff in Hbad as [_ Harr]. apply negb_false_iff in Harr.
  destruct m as [| | | | |elems|]; try done.
  destruct (import_node_fetch up) as [[]|e] eqn:Hi; [|left; simpl; eauto].
  right. by exists key, elems.
Qed.

(** The ways in which the handling of an upstream answer can end. *)
Lemma relay_cases answer :
  (ok answer = false
   ∧ relay answer = Return (Failure (status answer) (errorMessage (status answer))))
  ∨ (∃ e, relay answer = Throw e)
  ∨ relay answer = Return (Failure 500 msg_incomplete)
  ∨ ∃ data, ok answer = true ∧ json answer = Return data
            ∧ first_choice_has_message data = true
            ∧ relay answer = Return (ChatResult data).
Proof.
  unfold relay. destruct (ok answer) eqn:Hok; simpl.
  2:{ destruct (text answer); simpl; eauto. }
  destruct (json answer) as [data|e] eqn:Hj; simpl; [|eauto].
  destruct (member "choices" data) as [choices|e] eqn:Hc; simpl; [|eauto].
  destruct (truthy choices) eqn:Htc; simpl; [|eauto].
  destruct (index0 choices) as [choice|e] eqn:Hi; simpl; [|eauto].
  destruct (truthy choice) eqn:Hti; simpl; [|eauto].
  destruct (member "message" choice) as [message|e] eqn:Hm; simpl; [|eauto].
  destruct (truthy message) eqn:Hmsg; simpl; [|eauto].
  right. right. right. exists data. repeat split; try done.
  unfold first_choice_has_message. by rewrite Hc, Htc, Hi, Hti, Hm.
Qed.

Lemma ok_status answer : ok answer = false → ¬ (200 ≤ status answer < 300).
Proof.
  unfold ok. rewrite andb_false_iff, Z.leb_gt, Z.ltb_ge. lia.
Qed.

End ChatMore.

(** X11.  The chat handler calls the upstream at most once for a
    request, and only with the configured, non-empty key as bearer
    credential; the call carries the [messages] array of the body as it
    came, with the fixed model, token ceiling and temperature and with
    streaming off. *)
Theorem chat_calls_upstream_at_most_once
    (env : environment) (up : upstream) (req : request) :
  (length (chat_handler env up req).1 ≤ 1)%nat
  ∧ ∀ call, call ∈ (chat_handler env up req).1 →
      ∃ key elems,
        GROQ_API_KEY env = Some key ∧ key ≠ ""%string
        ∧ member "messages" (body req) = Return (VArr elems)
        ∧ (chat_handler env up req).1 = [call]
        ∧ url call = "https://api.groq.com/openai/v1/chat/completions"%string
        ∧ method call = "POST"%string
        ∧ authorization call = String.append "Bearer " key
        ∧ messages call = VArr elems
        ∧ model call = "llama3-70b-8192"%string
        ∧ max_tokens call = 4000
        ∧ temperature call = (3 # 10)%Q
        ∧ stream call = false.
Proof.
  unfold chat_handler. simpl.
  destruct (chat_try_cases env up req)
    as [[Hlog _]|(key & elems & Hkey & Hk & Hm & Hi & Htry)].
  - rewrite Hlog. split; [simpl; lia|]. intros call Hin. by apply elem_of_nil in Hin.
  - rewrite Htry. simpl. split; [done|].
    intros call Hin. apply list_elem_of_singleton in Hin as ->.
    exists key, elems. repeat split; try done. by intros ->.
Qed.

(** X12.  The chat handler never sends an error with a success status:
    when the status of its response is in 200..299, the response is the
    payload that the upstream delivered with a status in 200..299, that
    payload has a truthy [choices[0].message], and exactly one call was
    made. *)
Theorem chat_success_means_valid_payload
    (env : environment) (up : upstream) (req : request) :
  200 ≤ http_status (chat_handler env up req).2 < 300 →
  ∃ key elems answer data,
    (chat_handler env up req).1 = [chat_call key (VArr elems)]
    ∧ fetch up (chat_call key (VArr elems)) = Return answer
    ∧ 200 ≤ status answer < 300
    ∧ json answer = Return data
    ∧ first_choice_has_message data = true
    ∧ (chat_handler env up req).2 = ChatResult data.
Proof.
  unfold chat_handler. simpl.
  destruct (chat_try_cases env up req)
    as [[_ [H|[H|[e H]]]]|(key & elems & Hkey & Hk & Hm & Hi & Htry)];
    try (rewrite H; simpl; lia).
  rewrite Htry. simpl.
  destruct (fetch up (chat_call key (VArr elems))) as [answer|e] eqn:Hf;
    simpl; [|lia].
  destruct (relay_cases answer) as [[Hok H]|[[e H]|[H|(data & Hok & Hj & Hshape & H)]]];
    rewrite H; simpl; try lia.
  - intros Hs. by apply ok_status in Hok.
  - intros _. exists key, elems, answer, data. repeat split; try done.
    + unfold ok in Hok. apply andb_true_iff in Hok as [Hok _]. by apply Z.leb_le.
    + unfold ok in Hok. apply andb_true_iff in Hok as [_ Hok]. by apply Z.ltb_lt.
Qed.

Lemma chat_success_means_valid_payload_witness :
  ∃ key elems answer data,
    (chat_handler env_ok
       (up_answering (UpstreamResponse 200 (Return []) (Return payload_ok)))
       (chat_request one_message)).1 = [chat_call key (VArr elems)]
    ∧ fetch (up_answering (UpstreamResponse 200 (Return []) (Return payload_ok)))
        (chat_call key (VArr elems)) = Return answer
    ∧ 200 ≤ status answer < 300
    ∧ json answer = Return data
    ∧ first_choice_has_message data = true
    ∧ (chat_handler env_ok
         (up_answering (UpstreamResponse 200 (Return []) (Return payload_ok)))
         (chat_request one_message)).2 = ChatResult data.
Proof.
  apply (chat_success_means_valid_payload env_ok
           (up_answering (UpstreamResponse 200 (Return []) (Return payload_ok)))
           (chat_request one_message)).
  vm_compute. split; [discriminate|reflexivity].
Defined.



Lemma chat_calls_upstream_at_most_once_witness :
  ∃ key elems,
    GROQ_API_KEY env_ok = Some key ∧ key ≠ ""%string
    ∧ member "messages" (body (chat_request one_message)) = Return (VArr elems)
    ∧ (chat_handler env_ok
         (up_answering (UpstreamResponse 200 (Return []) (Return payload_ok)))
         (chat_request one_message)).1 = [chat_call "gsk_test" one_message]
    ∧ url (chat_call "gsk_test" one_message)
      = "https://api.groq.com/openai/v1/chat/completions"%string
    ∧ method (chat_call "gsk_test" one_message) = "POST"%string
    ∧ authorization (chat_call "gsk_test" one_message) = String.append "Bearer " key
    ∧ messages (chat_call "gsk_test" one_message) = VArr elems
    ∧ model (chat_call "gsk_test" one_message) = "llama3-70b-8192"%string
    ∧ max_tokens (chat_call "gsk_test" one_message) = 4000
    ∧ temperature (chat_call "gsk_test" one_message) = (3 # 10)%Q
    ∧ stream (chat_call "gsk_test" one_message) = false.
Proof.
  apply (proj2 (chat_calls_upstream_at_most_once env_ok
                  (up_answering (UpstreamResponse 200 (Return []) (Return payload_ok)))
                  (chat_request one_message))
           (chat_call "gsk_test" one_message)).
  apply list_elem_of_singleton. reflexivity.
Defined.

(** X14.  A request that the gate turns away never reaches a handler,
    on either route: the map stays as it was, no call goes to the
    upstream, and the response is the 429 of the gate with the ISO form
    of the stored [resetTime] (or, when that instant cannot be rendered,
    the 500 of the error handler).  This holds whether or not the
    credential is configured and whatever the body is. *)
Theorem turned_away_before_the_handlers
    (env : environment) (up : upstream) (now : Z)
    (counts : requestCounts) (req : request) :
  (rateLimitMiddleware now counts req).2 ≠ Next →
  ∃ d r,
    counts !! clientIP req = Some d ∧ now ≤ resetTime d ∧ RATE_LIMIT ≤ count d
    ∧ match toISOString (resetTime d) with
      | Return iso => r = RateLimited msg_rate_limit iso
      | Throw _ => r = Failure 500 msg_unexpected
      end
    ∧ api_chat env up now counts req = (counts, ([], r))
    ∧ api_generate_image now counts req = (counts, ([], r)).
Proof.
  intros Hv.
  destruct (gate_cases now counts req) as [H|d H ?|d H ? ?|d H Hle Hlim].
  - by rewrite gate_fresh in Hv.
  - by erewrite gate_rollover in Hv.
  - by erewrite gate_count in Hv.
  - exists d.
    unfold api_chat, api_generate_image, route.
    erewrite gate_full by done. simpl.
    destruct (toISOString (resetTime d)) as [iso|e]; eexists; eauto 10.
Qed.

Lemma turned_away_before_the_handlers_witness :
  ∃ d r,
    alice_exhausted !! clientIP (chat_request one_message) = Some d
    ∧ 5000 ≤ resetTime d ∧ RATE_LIMIT ≤ count d
    ∧ match toISOString (resetTime d) with
      | Return iso => r = RateLimited msg_rate_limit iso
      | Throw _ => r = Failure 500 msg_unexpected
      end
    ∧ api_chat env_without_key
        (up_answering (UpstreamResponse 200 (Return []) (Return payload_ok)))
        5000 alice_exhausted (chat_request one_message)
      = (alice_exhausted, ([], r))
    ∧ api_generate_image 5000 alice_exhausted (chat_request one_message)
      = (alice_exhausted, ([], r)).
Proof.
  apply (turned_away_before_the_handlers env_without_key
           (up_answering (UpstreamResponse 200 (Return []) (Return payload_ok)))
           5000 alice_exhausted (chat_request one_message)).
  vm_compute. discriminate.
Defined.

(** X15.  A request that a handler refuses still uses up quota.  When
    the gate lets a request through, the record of its client is charged
    before the handler looks at the body: a chat request without a
    [messages] array is answered by 400 and an image request without a
    prompt is answered by 400, and in both cases the count of the client
    has gone up by one. *)
Theorem refused_requests_are_charged
    (env : environment) (up : upstream) (now : Z)
    (counts : requestCounts) (req : request) (d : clientData) :
  counts !! clientIP req = Some d → now ≤ resetTime d → count d < RATE_LIMIT →
  (∀ m, configured (GROQ_API_KEY env) = true →
        member "messages" (body req) = Return m →
        truthy m = false ∨ isArray m = false →
        api_chat env up now counts req
        = (<[clientIP req := ClientData (count d + 1) (resetTime d)]> counts,
           ([], Failure 400 msg_messages_required)))
  ∧ (∀ p, member "prompt" (body req) = Return p → truthy p = false →
          api_generate_image now counts req
          = (<[clientIP req := ClientData (count d + 1) (resetTime d)]> counts,
             ([], Failure 400 msg_prompt_required))).
Proof.
  intros Hd Hle Hlt. split.
  - intros m Hk Hm Hbad. unfold api_chat, route.
    erewrite gate_count by done. simpl.
    by rewrite (chat_invalid env up req m Hk Hm Hbad).
  - intros p Hp Hf. unfold api_generate_image, route.
    erewrite gate_count by done. simpl.
    by rewrite (image_handler_falsy req p Hp Hf).
Qed.

Lemma refused_requests_are_charged_witness :
  api_chat env_ok
    (up_answering (UpstreamResponse 200 (Return []) (Return payload_ok)))
    5000 alice_busy alice
  = (<[clientIP alice := ClientData (7 + 1) 3600000]> alice_busy,
     ([], Failure 400 msg_messages_required))
  ∧ api_generate_image 5000 alice_busy alice
    = (<[clientIP alice := ClientData (7 + 1) 3600000]> alice_busy,
       ([], Failure 400 msg_prompt_required)).
Proof.
  destruct (refused_requests_are_charged env_ok
              (up_answering (UpstreamResponse 200 (Return []) (Return payload_ok)))
              5000 alice_busy alice (ClientData 7 3600000))
    as [Hchat Himage].
  - reflexivity.
  - simpl. lia.
  - vm_compute. reflexivity.
  - split.
    + apply (Hchat VUndefined); [reflexivity | reflexivity | left; reflexivity].
    + apply (Himage VUndefined); reflexivity.
Defined.

(** * Properties of the deployment self-test *)

Section SelfTest.
Implicit Types (answer : health_response) (s : jsstring).

Local Arguments includes : simpl never.
Local Arguments js : simpl never.
Local Arguments member : simpl never.

Lemma test_try_status answer :
  health_status answer ≠ 200 → test_try (Return answer) = Return (VBool false).
Proof.
  intros Hs. unfold test_try. simpl.
  rewrite (proj2 (Z.eqb_neq _ _) Hs). by destruct (500 <=? health_status answer).
Qed.

(** X16.  [testSyntaxFix] reports success only for an answer with
    status 200 whose [Access-Control-Allow-Origin] header mentions
    [anuwatkoon.com].  It returns [false] when the fetch fails, when the
    status is not 200 and when the header is absent.  When the header is
    exactly [http://www.anuwatkoon.com] the body decides: with the health
    payload of [server.js] the result is [true], but with a body that has
    no truthy [cors] field no [return] is reached and the result is
    [undefined]. *)
Theorem self_test_outcomes :
  (∀ fetched, testSyntaxFix fetched = VBool true →
     ∃ answer origin,
       fetched = Return answer ∧ health_status answer = 200
       ∧ allow_origin answer = Some origin
       ∧ includes (js "anuwatkoon.com") origin = true)
  ∧ (∀ e, testSyntaxFix (Throw e) = VBool false)
  ∧ (∀ answer, health_status answer ≠ 200 →
               testSyntaxFix (Return answer) = VBool false)
  ∧ (∀ answer, allow_origin answer = None →
               testSyntaxFix (Return answer) = VBool false)
  ∧ (∀ (now : Z) iso, toISOString now = Return iso →
       testSyntaxFix
         (Return (HealthResponse 200 (Some (js "http://www.anuwatkoon.com"))
                    (health_handler now)))
       = VBool true)
  ∧ (∀ answer data cors,
       health_status answer = 200 →
       allow_origin answer = Some (js "http://www.anuwatkoon.com") →
       health_json answer = Return data →
       member "cors" data = Return cors → truthy cors = false →
       testSyntaxFix (Return answer) = VUndefined).
Proof.
  split; [|split; [|split; [|split; [|split]]]].
  - intros [answer|e]; [|by simpl].
    unfold testSyntaxFix, test_try. simpl.
    destruct (health_status answer =? 200) eqn:Hs.
    2:{ by destruct (500 <=? health_status answer). }
    apply Z.eqb_eq in Hs. case_bool_decide as Hexact.
    + intros _. exists answer, (js "http://www.anuwatkoon.com"). by repeat split.
    + destruct (allow_origin answer) as [[|c origin]|] eqn:Ho; try done.
      destruct (includes (js "anuwatkoon.com") (c :: origin)) eqn:Hinc; [|done].
      intros _. by exists answer, (c :: origin).
  - done.
  - intros answer Hs. unfold testSyntaxFix. by rewrite test_try_status.
  - intros answer Ho. unfold testSyntaxFix, test_try. simpl. rewrite Ho.
    destruct (health_status answer =? 200); [done|].
    by destruct (500 <=? health_status answer).
  - intros now iso Hiso. unfold testSyntaxFix, test_try, health_handler.
    rewrite Hiso. reflexivity.
  - intros answer data cors Hs Ho Hj Hc Hf.
    unfold testSyntaxFix, test_try. simpl.
    rewrite Hs, Ho, Hj, (bool_decide_eq_true_2 _ eq_refl). simpl.
    rewrite Hc. simpl. by rewrite Hf.
Qed.

End SelfTest.

Lemma self_test_outcomes_witness :
  (∃ answer origin,
     Return (HealthResponse 200 (Some (js "https://anuwatkoon.com")) (Throw TypeError))
     = Return answer
     ∧ health_status answer = 200
     ∧ allow_origin answer = Some origin
     ∧ includes (js "anuwatkoon.com") origin = true)
  ∧ testSyntaxFix
      (Return (HealthResponse 200 (Some (js "http://www.anuwatkoon.com"))
                 (Return (VObj [(js "status", VStr (js "OK"))]))))
    = VUndefined.
Proof.
  split.
  - apply (proj1 self_test_outcomes
             (Return (HealthResponse 200 (Some (js "https://anuwatkoon.com"))
                        (Throw TypeError)))).
    reflexivity.
  - apply (proj2 (proj2 (proj2 (proj2 (proj2 self_test_outcomes))))
             (HealthResponse 200 (Some (js "http://www.anuwatkoon.com"))
                (Return (VObj [(js "status", VStr (js "OK"))])))
             (VObj [(js "status", VStr (js "OK"))]) VUndefined); reflexivity.
Defined.
